(** * Ghost skill: the init check (scripts/init.py) and the client core it drives

    The repository's source under verification is [scripts/init.py]: the
    [Results] accumulator and [main], the check-list run against a live
    instance.  The client module [ghost] that [init.py] imports
    ([GhostClient], [_make_jwt], the error classes) is not part of the
    sources at hand; where a statement is about that module, the
    development models it from the specification and says so at the
    definition. *)

From Stdlib Require Import ZArith NArith Ascii String List Bool Lia.
From Stdlib.Strings Require Import Byte.
From stdpp Require Import base option list gmap strings pretty.

Set Warnings "-register-all".

Local Open Scope string_scope.
Local Open Scope Z_scope.
Local Open Scope list_scope.

(** ** Python values *)

(** What [json.loads] hands to the script: the values a parsed response
    or a parsed [config.json] consists of.  Numbers are the integers; a
    dict is a finite map, as [json.loads] keeps the last of two equal
    keys. *)
Inductive json : Type :=
  | JNull : json
  | JBool : bool -> json
  | JNum  : Z -> json
  | JStr  : string -> json
  | JArr  : list json -> json
  | JObj  : gmap string json -> json.

(** Python truthiness, the test that [if x:] and [not x] apply. *)
Definition truthy (v : json) : bool :=
  match v with
  | JNull => false
  | JBool b => b
  | JNum z => negb (z =? 0)
  | JStr s => negb (String.eqb s EmptyString)
  | JArr l => match l with [] => false | _ :: _ => true end
  | JObj m => negb (bool_decide (m = ∅))
  end.

(** [d.get(key, default)] on a dict. *)
Definition dict_get (d : gmap string json) (key : string) (default : json) : json :=
  match d !! key with
  | Some v => v
  | None => default
  end.

(** The built-in exception classes that are no subclasses of
    [Exception]: an [except Exception] does not catch them. *)
Definition outside_Exception : list string :=
  ["BaseException"; "BaseExceptionGroup"; "GeneratorExit";
   "KeyboardInterrupt"; "SystemExit"].

Definition is_Exception (name : string) : bool :=
  negb (existsb (String.eqb name) outside_Exception).

(** An exception that is an instance of [Exception], the class every
    handler of the script names: its class name and [str(e)].  What is
    raised outside [Exception] is an [interrupt]; the handlers let it
    through, and the run under interrupts is [main_full] below. *)
Record py_exn : Type := PyExn {
  exn_class : string;
  exn_str : string;
  exn_is_Exception : is_Exception exn_class = true
}.

(** A [BaseException] outside [Exception]: a [KeyboardInterrupt], a
    [SystemExit] raised inside a call, and the like. *)
Record interrupt : Type := Interrupt {
  interrupt_class : string;
  interrupt_str : string;
  interrupt_outside : is_Exception interrupt_class = false
}.

(** What a call does when nothing interrupts it: it returns, or it
    raises an exception that is an instance of [Exception]. *)
Inductive outcome (A : Type) : Type :=
  | Returns : A -> outcome A
  | Raises : py_exn -> outcome A.
Arguments Returns {A} _.
Arguments Raises {A} _.

Definition obind {A B : Type} (m : outcome A) (k : A -> outcome B) : outcome B :=
  match m with
  | Returns a => k a
  | Raises e => Raises e
  end.

Notation "x <- m ;; k" := (obind m (fun x => k))
  (at level 100, m at next level, right associativity, only parsing).

Definition type_name (v : json) : string :=
  match v with
  | JNull => "NoneType"
  | JBool _ => "bool"
  | JNum _ => "int"
  | JStr _ => "str"
  | JArr _ => "list"
  | JObj _ => "dict"
  end.

(** [v.get(key, default)] on whatever a call returned: only a dict has
    the method, anything else raises [AttributeError]. *)
Definition py_get (v : json) (key : string) (default : json) : outcome json :=
  match v with
  | JObj d => Returns (dict_get d key default)
  | _ => Raises (PyExn "AttributeError"
                   ("'" +:+ type_name v +:+ "' object has no attribute 'get'")
                   eq_refl)
  end.

Definition nl : string := String (ascii_of_nat 10) EmptyString.
Definition dq : string := String (ascii_of_nat 34) EmptyString.

(** ** Policy configuration and the permission decision *)

Inductive OperationKind : Type :=
  | Read | Write | Publish | Unpublish | Delete | MemberRead.

Record PolicyConfig : Type := {
  readonly_mode : bool;
  allow_publish : bool;
  allow_delete : bool;
  allow_member_access : bool
}.

Inductive decision : Type :=
  | Allow : decision
  | Deny : string -> decision.

(** The flag a config dict stands for: [cfg.get(key, default)] read as a
    condition.  [main] reads the four keys this way, at lines 109, 169,
    202 and 254. *)
Definition cfg_flag (cfg : gmap string json) (key : string) (default : bool) : bool :=
  truthy (dict_get cfg key (JBool default)).

Definition policy_of (cfg : gmap string json) : PolicyConfig :=
  {| readonly_mode := cfg_flag cfg "readonly_mode" false;
     allow_publish := cfg_flag cfg "allow_publish" true;
     allow_delete := cfg_flag cfg "allow_delete" false;
     allow_member_access := cfg_flag cfg "allow_member_access" false |}.

(** The permission decision as [main] takes it, one cascade per section
    of the script: the connection and read checks run unconditionally
    (lines 117-141); create and update are guarded by [ro] alone (lines
    146, 161, 189); publish and unpublish test [allow_publish] and then
    [ro] (lines 169-172); delete tests [allow_delete] and then [ro] (lines
    202, 227); the member listing tests [allow_member_access] alone (line
    254).  The reasons are the strings the script records. *)
Definition check (kind : OperationKind) (policy : PolicyConfig) : decision :=
  match kind with
  | Read => Allow
  | Write =>
      if readonly_mode policy then Deny "readonly_mode=true" else Allow
  | Publish | Unpublish =>
      if negb (allow_publish policy) then Deny "allow_publish=false"
      else if readonly_mode policy then Deny "readonly_mode=true"
      else Allow
  | Delete =>
      if negb (allow_delete policy) then Deny "allow_delete=false"
      else if readonly_mode policy then Deny "readonly_mode=true"
      else Allow
  | MemberRead =>
      if negb (allow_member_access policy) then Deny "allow_member_access=false"
      else Allow
  end.

(** The decision table as the specification words it (section 4.2, first
    match wins), kept apart from [check] to compare the two. *)
Definition spec_check (kind : OperationKind) (policy : PolicyConfig) : decision :=
  if readonly_mode policy
     && negb (match kind with Read | MemberRead => true | _ => false end)
  then Deny "readonly_mode"
  else if match kind with Publish | Unpublish => true | _ => false end
          && negb (allow_publish policy)
  then Deny "allow_publish=false"
  else if match kind with Delete => true | _ => false end
          && negb (allow_delete policy)
  then Deny "allow_delete=false"
  else if match kind with MemberRead => true | _ => false end
          && negb (allow_member_access policy)
  then Deny "allow_member_access=false"
  else Allow.

Definition allowed (d : decision) : bool :=
  match d with Allow => true | Deny _ => false end.

(** ** scripts/init.py: the Results accumulator *)

Definition TEST_TITLE : string := "[skill-init-test] DELETE ME".
Definition TEST_TAG : string := "__skill-init-test__".

(** One element of [Results._entries]. *)
Record entry : Type := Entry {
  entry_ts : string;
  entry_status : string;
  entry_check : string;
  entry_detail : string
}.

(** The line [write_log] appends to [.skill-logs/init.jsonl], before
    [json.dumps]. *)
Record run_entry : Type := RunEntry {
  run_ts : string;
  run_skill : string;
  run_passed : nat;
  run_failed : nat;
  run_skipped : nat;
  run_checks : list entry
}.

(** A client call [main] makes, with its arguments. *)
Inductive call : Type :=
  | GetSite
  | ListPosts (limit : Z) (status fields : string)
  | ListTags (limit : Z)
  | CreatePost (title html status : string)
  | UpdatePost (post_id : json) (custom_excerpt : string)
  | PublishPost (post_id : json)
  | UnpublishPost (post_id : json)
  | CreateTag (name description : string)
  | DeletePost (post_id : json)
  | DeleteTag (tag_id : json)
  | ListMembers (limit : Z).

(** What the script does towards the network, in order: a call into the
    client, or the [requests.delete] it sends itself. *)
Inductive event : Type :=
  | ClientCall (c : call)
  | HttpDelete (url : string) (headers : list (string * string)).

(** The script's variables and what it has produced so far: the fields of
    [r], the two test ids ([JNull] is [None]), the text written to
    standard output (one element per [print]), the network events and the
    lines appended to the log file. *)
Record state : Type := State {
  passed : list string;
  failed : list string;
  skipped : list string;
  entries : list entry;
  test_post_id : json;
  test_tag_id : json;
  out : list string;
  net : list event;
  log_lines : list run_entry
}.

Definition initial : state :=
  State [] [] [] [] JNull JNull [] [] [].

(** [print(s)] and [print(s, end="")]. *)
Definition print (s : string) (st : state) : state :=
  State (passed st) (failed st) (skipped st) (entries st)
        (test_post_id st) (test_tag_id st) (out st ++ [s +:+ nl]) (net st) (log_lines st).

Definition print_noend (s : string) (st : state) : state :=
  State (passed st) (failed st) (skipped st) (entries st)
        (test_post_id st) (test_tag_id st) (out st ++ [s]) (net st) (log_lines st).

Definition emit (ev : event) (st : state) : state :=
  State (passed st) (failed st) (skipped st) (entries st)
        (test_post_id st) (test_tag_id st) (out st) (net st ++ [ev]) (log_lines st).

Definition set_test_post_id (v : json) (st : state) : state :=
  State (passed st) (failed st) (skipped st) (entries st)
        v (test_tag_id st) (out st) (net st) (log_lines st).

Definition set_test_tag_id (v : json) (st : state) : state :=
  State (passed st) (failed st) (skipped st) (entries st)
        (test_post_id st) v (out st) (net st) (log_lines st).

Definition nonempty (s : string) : bool := negb (String.eqb s EmptyString).

(** The client object [gc] as the script sees it in one run: its
    attributes, and for each method what the call the script makes does
    (the methods that take the test id are given it). *)
Record GhostClient : Type := {
  cfg : gmap string json;
  api_url : string;
  get_site : outcome json;
  list_posts : outcome json;
  list_tags : outcome json;
  create_post : outcome json;
  update_post : json -> outcome json;
  publish_post : json -> outcome json;
  unpublish_post : json -> outcome json;
  create_tag : outcome json;
  delete_post : json -> outcome json;
  delete_tag : json -> outcome json;
  list_members : outcome json
}.

(** What the three statements of a cleanup [try] block do in this run:
    [import requests], [_make_jwt(gc._key_id, gc._secret_hex)] and
    [requests.delete(url, headers=...)]. *)
Record cleanup_env : Type := {
  import_requests : outcome unit;
  _make_jwt : outcome string;
  requests_delete : string -> list (string * string) -> outcome unit
}.

(** [GhostClient()]: the client, a [GhostError], or any other exception. *)
Inductive construction : Type :=
  | Constructed (gc : GhostClient)
  | RaisesGhostError (e : py_exn)
  | RaisesOther (e : py_exn).

(** Everything outside the script that a run depends on. *)
Record world : Type := {
  CREDS_FILE : string;
  creds_exist : bool;
  new_client : construction;
  post_cleanup : cleanup_env;
  tag_cleanup : cleanup_env;
  log_file : string;
  log_error : option py_exn
}.

(** How the process ends: an exit status, or an exception nobody caught. *)
Inductive exit : Type :=
  | Exit (code : Z)
  | Uncaught (e : py_exn).

Section Run.

(** The wall clock: [clock n] is what the [n]-th reading of
    [datetime.now(timezone.utc).isoformat()] gives in this run. *)
Variable clock : nat -> string.

(** [str()] of a list or a dict (Python prints the [repr] of the
    elements); the script only splices it into messages. *)
Variable str_compound : json -> string.

(** [str(v)], as an f-string applies it. *)
Definition py_str (v : json) : string :=
  match v with
  | JNull => "None"
  | JBool true => "True"
  | JBool false => "False"
  | JNum z => pretty z
  | JStr s => s
  | JArr _ | JObj _ => str_compound v
  end.

(** [Results._record]: every entry takes one reading of the clock, so
    the next reading is the number of entries so far. *)
Definition _record (status label detail : string) (st : state) : state :=
  State (passed st) (failed st) (skipped st)
        (entries st ++ [Entry (clock (length (entries st))) status label detail])
        (test_post_id st) (test_tag_id st) (out st) (net st) (log_lines st).

Definition push_passed (label : string) (st : state) : state :=
  State (passed st ++ [label]) (failed st) (skipped st) (entries st)
        (test_post_id st) (test_tag_id st) (out st) (net st) (log_lines st).

Definition push_failed (label : string) (st : state) : state :=
  State (passed st) (failed st ++ [label]) (skipped st) (entries st)
        (test_post_id st) (test_tag_id st) (out st) (net st) (log_lines st).

Definition push_skipped (label : string) (st : state) : state :=
  State (passed st) (failed st) (skipped st ++ [label]) (entries st)
        (test_post_id st) (test_tag_id st) (out st) (net st) (log_lines st).

(** [Results.ok], [Results.fail], [Results.skip]. *)
Definition ok (label detail : string) (st : state) : state :=
  let st := push_passed label st in
  let st := _record "pass" label detail st in
  let suffix := if nonempty detail then "  " +:+ detail else EmptyString in
  print ("  ✓  " +:+ label +:+ suffix) st.

Definition fail (label reason : string) (st : state) : state :=
  let st := push_failed label st in
  let st := _record "fail" label reason st in
  let suffix := if nonempty reason then "  → " +:+ reason else EmptyString in
  print ("  ✗  " +:+ label +:+ suffix) st.

Definition skip (label reason : string) (st : state) : state :=
  let st := push_skipped label st in
  let st := _record "skip" label reason st in
  print ("  ~  " +:+ label +:+ "  (skipped: " +:+ reason +:+ ")") st.

(** [Results.summary]. *)
Definition summary (st : state) : state :=
  let total := (length (passed st) + length (failed st))%nat in
  let n_skipped := length (skipped st) in
  let st := print_noend (nl +:+ "  " +:+ pretty (length (passed st)) +:+ "/"
                           +:+ pretty total +:+ " checks passed") st in
  let st := if (0 <? n_skipped)%nat
            then print_noend (", " +:+ pretty n_skipped
                                +:+ " skipped (disabled in config)") st
            else st in
  let st := print EmptyString st in
  match failed st with
  | [] => st
  | _ :: _ =>
      let st := print (nl +:+ "  Failed checks:") st in
      fold_left (fun st f => print ("    ✗  " +:+ f) st) (failed st) st
  end.

(** [Results.write_log]: [log_error] is what creating the directory or
    appending to the file raises, if anything; [log_file] is the path as
    printed.  The handler is [except Exception] (line 87), and [log_error]
    is an instance of [Exception] by its type; what is raised outside
    [Exception] is not caught here, see [finish_full]. *)
Definition write_log (log_file : string) (log_error : option py_exn) (st : state) : state :=
  match log_error with
  | None =>
      let line := RunEntry (clock (length (entries st))) "ghost"
                           (length (passed st)) (length (failed st))
                           (length (skipped st)) (entries st) in
      let st := State (passed st) (failed st) (skipped st) (entries st)
                      (test_post_id st) (test_tag_id st) (out st) (net st)
                      (log_lines st ++ [line]) in
      print (nl +:+ "  Log written → " +:+ log_file) st
  | Some e =>
      print (nl +:+ "  (Log write failed: " +:+ exn_str e +:+ ")") st
  end.

(** *** main, section by section *)

(** [result.get("meta", {}).get("pagination", {}).get("total", "?")],
    lines 131, 138 and 259. *)
Definition pagination_total (result : json) : outcome json :=
  meta <- py_get result "meta" (JObj ∅) ;;
  pagination <- py_get meta "pagination" (JObj ∅) ;;
  py_get pagination "total" (JStr "?").

(** 1. Connection and site info (lines 116-124); [Some] is the early
    [sys.exit].  Here and in the sections below the handler is
    [except Exception], and a [Raises] carries an instance of [Exception]
    by its type; what a call raises outside [Exception] passes the
    handler, see [connect_full] and the definitions after it. *)
Definition connect (gc : GhostClient) (st : state) : option exit * state :=
  let st := print (nl +:+ "● Connection" +:+ nl) st in
  let st := emit (ClientCall GetSite) st in
  match (site <- get_site gc ;;
         title <- py_get site "title" (JStr "?") ;;
         version <- py_get site "version" (JStr "?") ;;
         Returns ("site=" +:+ dq +:+ py_str title +:+ dq
                    +:+ "  version=" +:+ py_str version)) with
  | Returns detail => (None, ok "Connect" detail st)
  | Raises e =>
      let st := fail "Connect" (exn_str e) st in
      let st := print (nl +:+ "  Cannot proceed without a valid connection. Check credentials.") st in
      let st := summary st in
      (Some (Exit 1), st)
  end.

(** 2. Read (lines 127-141). *)
Definition read_posts (gc : GhostClient) (st : state) : state :=
  let st := emit (ClientCall (ListPosts 1 "all" "id,title,status")) st in
  match (result <- list_posts gc ;;
         posts <- py_get result "posts" (JArr []) ;;
         total <- pagination_total result ;;
         Returns (py_str total +:+ " post(s) on this instance")) with
  | Returns detail => ok "Read posts" detail st
  | Raises e => fail "Read posts" (exn_str e) st
  end.

Definition read_tags (gc : GhostClient) (st : state) : state :=
  let st := emit (ClientCall (ListTags 1)) st in
  match (result <- list_tags gc ;;
         total <- pagination_total result ;;
         Returns (py_str total +:+ " tag(s) on this instance")) with
  | Returns detail => ok "Read tags" detail st
  | Raises e => fail "Read tags" (exn_str e) st
  end.

(** 3. Write: create a draft post (lines 146-158). *)
Definition write_draft (gc : GhostClient) (ro : json) (st : state) : state :=
  if truthy ro then skip "Write (create draft)" "readonly_mode=true" st
  else
    let st := emit (ClientCall (CreatePost TEST_TITLE
                      "<p>Automated skill init check — safe to delete.</p>"
                      "draft")) st in
    match (post <- create_post gc ;; py_get post "id" JNull) with
    | Returns id =>
        let st := set_test_post_id id st in
        ok "Write (create draft)" ("id=" +:+ py_str id) st
    | Raises e => fail "Write (create draft)" (exn_str e) st
    end.

(** 4. Update (lines 161-166). *)
Definition update_draft (gc : GhostClient) (ro : json) (st : state) : state :=
  if truthy (test_post_id st) && negb (truthy ro) then
    let st := emit (ClientCall (UpdatePost (test_post_id st) "init check excerpt")) st in
    match update_post gc (test_post_id st) with
    | Returns _ => ok "Write (update post)" EmptyString st
    | Raises e => fail "Write (update post)" (exn_str e) st
    end
  else st.

(** 5. Publish and unpublish (lines 169-186). *)
Definition publish_unpublish (gc : GhostClient) (ro : json) (st : state) : state :=
  if negb (truthy (dict_get (cfg gc) "allow_publish" (JBool true))) then
    skip "Publish / Unpublish" "allow_publish=false" st
  else if truthy ro then
    skip "Publish / Unpublish" "readonly_mode=true" st
  else if truthy (test_post_id st) then
    let st := emit (ClientCall (PublishPost (test_post_id st))) st in
    let st := match publish_post gc (test_post_id st) with
              | Returns _ => ok "Publish post" EmptyString st
              | Raises e => fail "Publish post" (exn_str e) st
              end in
    let st := emit (ClientCall (UnpublishPost (test_post_id st))) st in
    match unpublish_post gc (test_post_id st) with
    | Returns _ => ok "Unpublish post (→ draft)" EmptyString st
    | Raises e => fail "Unpublish post" (exn_str e) st
    end
  else
    skip "Publish / Unpublish" "no test post created (write check failed)" st.

(** 6. Tags (lines 189-197). *)
Definition write_tag (gc : GhostClient) (ro : json) (st : state) : state :=
  if truthy ro then skip "Write (create tag)" "readonly_mode=true" st
  else
    let st := emit (ClientCall (CreateTag TEST_TAG "skill init test — safe to delete")) st in
    match (tag <- create_tag gc ;; py_get tag "id" JNull) with
    | Returns id =>
        let st := set_test_tag_id id st in
        ok "Write (create tag)" ("id=" +:+ py_str id) st
    | Raises e => fail "Write (create tag)" (exn_str e) st
    end.

(** The [try] blocks of lines 208-216 and 218-226: the script's own
    DELETE, sent without asking the client.  The handlers (lines 215 and
    225) are [except Exception]: an instance of [Exception] raised by
    any of the three statements ends in the warning; what is raised
    outside [Exception] passes them, see [cleanup_full]. *)
Definition cleanup (c : cleanup_env) (url warning : string) (st : state) : state :=
  match import_requests c with
  | Raises _ => print warning st
  | Returns _ =>
      match _make_jwt c with
      | Raises _ => print warning st
      | Returns token =>
          let headers := [("Authorization", "Ghost " +:+ token);
                          ("Accept-Version", "v5.0")] in
          let st := emit (HttpDelete url headers) st in
          match requests_delete c url headers with
          | Raises _ => print warning st
          | Returns _ => st
          end
      end
  end.

Definition post_url (gc : GhostClient) (id : json) : string :=
  api_url gc +:+ "/posts/" +:+ py_str id.

Definition tag_url (gc : GhostClient) (id : json) : string :=
  api_url gc +:+ "/tags/" +:+ py_str id.

(** 7. Delete (lines 200-249). *)
Definition delete_section (w : world) (gc : GhostClient) (ro : json) (st : state) : state :=
  let st := print (nl +:+ "● Delete permissions" +:+ nl) st in
  if negb (truthy (dict_get (cfg gc) "allow_delete" (JBool false))) then
    let st := skip "Delete (post)" "allow_delete=false" st in
    let st := skip "Delete (tag)" "allow_delete=false" st in
    let st :=
      if truthy (test_post_id st) then
        cleanup (post_cleanup w) (post_url gc (test_post_id st))
          ("  ⚠  Test post " +:+ py_str (test_post_id st)
             +:+ " could not be cleaned up. Delete manually.") st
      else st in
    if truthy (test_tag_id st) then
      cleanup (tag_cleanup w) (tag_url gc (test_tag_id st))
        ("  ⚠  Test tag " +:+ py_str (test_tag_id st)
           +:+ " could not be cleaned up. Delete manually.") st
    else st
  else if truthy ro then
    let st := skip "Delete (post)" "readonly_mode=true" st in
    skip "Delete (tag)" "readonly_mode=true" st
  else
    let st :=
      if truthy (test_post_id st) then
        let st := emit (ClientCall (DeletePost (test_post_id st))) st in
        match delete_post gc (test_post_id st) with
        | Returns _ => ok "Delete (post)" EmptyString (set_test_post_id JNull st)
        | Raises e => fail "Delete (post)" (exn_str e) st
        end
      else skip "Delete (post)" "no test post to delete" st in
    if truthy (test_tag_id st) then
      let st := emit (ClientCall (DeleteTag (test_tag_id st))) st in
      match delete_tag gc (test_tag_id st) with
      | Returns _ => ok "Delete (tag)" EmptyString (set_test_tag_id JNull st)
      | Raises e => fail "Delete (tag)" (exn_str e) st
      end
    else skip "Delete (tag)" "no test tag to delete" st.

(** 8. Members (lines 252-262). *)
Definition members (gc : GhostClient) (st : state) : state :=
  let st := print (nl +:+ "● Optional permissions" +:+ nl) st in
  if negb (truthy (dict_get (cfg gc) "allow_member_access" (JBool false))) then
    skip "Members (list)" "allow_member_access=false" st
  else
    let st := emit (ClientCall (ListMembers 1)) st in
    match (result <- list_members gc ;;
           total <- pagination_total result ;;
           Returns (py_str total +:+ " member(s)")) with
    | Returns detail => ok "Members (list)" detail st
    | Raises e => fail "Members (list)" (exn_str e) st
    end.

(** Sections 2 to 8 in order: what runs once the connection check has
    passed, up to the summary. *)
Definition checks (w : world) (gc : GhostClient) (ro : json) (st : state) : state :=
  let st := print (nl +:+ "● Read permissions" +:+ nl) st in
  let st := read_posts gc st in
  let st := read_tags gc st in
  let st := print (nl +:+ "● Write permissions" +:+ nl) st in
  let st := write_draft gc ro st in
  let st := update_draft gc ro st in
  let st := publish_unpublish gc ro st in
  let st := write_tag gc ro st in
  let st := delete_section w gc ro st in
  members gc st.

(** Summary, log and exit status (lines 265-276). *)
Definition finish (w : world) (st : state) : exit * state :=
  let st := print (nl +:+ "┌─────────────────────────────────────────┐") st in
  let st := print "│   Init check complete                   │" st in
  let st := print "└─────────────────────────────────────────┘" st in
  let st := summary st in
  let st := write_log (log_file w) (log_error w) st in
  match failed st with
  | _ :: _ =>
      (Exit 1, print (nl +:+ "  Review config.json and ghost_creds, then re-run setup.py." +:+ nl) st)
  | [] =>
      (Exit 0, print (nl +:+ "  Skill is ready to use. ✓" +:+ nl) st)
  end.

Definition main (w : world) : exit * state :=
  let st := print "┌─────────────────────────────────────────┐" initial in
  let st := print "│   Ghost Skill — Init Check              │" st in
  let st := print "└─────────────────────────────────────────┘" st in
  if negb (creds_exist w) then
    let st := print (nl +:+ "✗ Credentials not found: " +:+ CREDS_FILE w) st in
    let st := print "  Run setup.py first:  python3 scripts/setup.py" st in
    (Exit 1, st)
  else
    match new_client w with
    | RaisesGhostError e => (Exit 1, print (nl +:+ "✗ " +:+ exn_str e) st)
    | RaisesOther e => (Uncaught e, st)
    | Constructed gc =>
        let ro := dict_get (cfg gc) "readonly_mode" (JBool false) in
        match connect gc st with
        | (Some code, st) => (code, st)
        | (None, st) => finish w (checks w gc ro st)
        end
    end.

End Run.

(** ** The client core behind [gc]

    [init.py] imports the client from the module [ghost], which is not
    among the sources.  This part models it from the specification
    (sections 3, 4 and 7): token, request executor and the resource
    operations, each composed as gate, token, request. *)

(** Modelled from the spec: the error taxonomy of section 7 (the module
    [ghost] that declares the classes is missing). *)
Inductive error : Type :=
  | InvalidCredentialsError
  | PermissionDeniedError (reason : string)
  | AuthenticationError
  | NotFoundError
  | ConflictError
  | RemoteApiError (status : Z) (detail : string)
  | TransportError
  | DecodeError.

Inductive result (A : Type) : Type :=
  | Ok : A -> result A
  | Failed : error -> result A.
Arguments Ok {A} _.
Arguments Failed {A} _.

(** Modelled from the spec: the records of section 3. *)
Record Credentials : Type := {
  key_id : string;
  secret : string   (* the secret as stored, in hex *)
}.

Record TokenHeader : Type := {
  algorithm : string;
  type : string;
  header_key_id : string
}.

Record TokenPayload : Type := {
  issued_at : Z;
  expires_at : Z;
  audience : string
}.

Record AuthToken : Type := {
  header : TokenHeader;
  payload : TokenPayload;
  signature : list Byte.byte
}.

(** Hex decoding of the secret: two digits a byte, either case. *)
Definition hex_digit (c : ascii) : option N :=
  let n := N_of_ascii c in
  if ((48 <=? n) && (n <=? 57))%N then Some (n - 48)%N
  else if ((97 <=? n) && (n <=? 102))%N then Some (n - 87)%N
  else if ((65 <=? n) && (n <=? 70))%N then Some (n - 55)%N
  else None.

Fixpoint unhex (s : string) : option (list Byte.byte) :=
  match s with
  | EmptyString => Some []
  | String _ EmptyString => None
  | String hi (String lo rest) =>
      match hex_digit hi, hex_digit lo, unhex rest with
      | Some h, Some l, Some bs =>
          match Byte.of_N (16 * h + l) with
          | Some b => Some (b :: bs)
          | None => None
          end
      | _, _, _ => None
      end
  end.

(** URL-safe base64 without padding. *)
Definition b64url_alphabet : string :=
  "ABCDEFGHIJKLMNOPQRSTUVWXYZabcdefghijklmnopqrstuvwxyz0123456789-_".

Definition b64url_char (n : N) : string :=
  match String.get (N.to_nat n) b64url_alphabet with
  | Some c => String c EmptyString
  | None => EmptyString
  end.

Fixpoint b64url_encode (bs : list Byte.byte) : string :=
  match bs with
  | [] => EmptyString
  | [a] =>
      let x := Byte.to_N a in
      b64url_char (N.shiftr x 2)
      +:+ b64url_char (N.shiftl (N.land x 3) 4)
  | [a; b] =>
      let x := Byte.to_N a in
      let y := Byte.to_N b in
      b64url_char (N.shiftr x 2)
      +:+ b64url_char (N.lor (N.shiftl (N.land x 3) 4) (N.shiftr y 4))
      +:+ b64url_char (N.shiftl (N.land y 15) 2)
  | a :: b :: c :: rest =>
      let x := Byte.to_N a in
      let y := Byte.to_N b in
      let z := Byte.to_N c in
      b64url_char (N.shiftr x 2)
      +:+ b64url_char (N.lor (N.shiftl (N.land x 3) 4) (N.shiftr y 4))
      +:+ b64url_char (N.lor (N.shiftl (N.land y 15) 2) (N.shiftr z 6))
      +:+ b64url_char (N.land z 63)
      +:+ b64url_encode rest
  end.

(** What the specification names without fixing: the algorithm and type
    the header claims, the audience, the JSON text of header and payload,
    the keyed hash, the authorization scheme, the version header, the
    JSON parser applied to a response body and the excerpt taken from it,
    and how a reply tells a stale-state mismatch. *)
Record conventions : Type := {
  algorithm_name : string;
  token_type : string;
  admin_audience : string;
  header_json : TokenHeader -> list Byte.byte;
  payload_json : TokenPayload -> list Byte.byte;
  hmac : list byte -> list Byte.byte -> list Byte.byte;
  auth_scheme : string;
  version_header : string * string;
  loads : string -> option json;
  excerpt : string -> string;
  reports_stale : Z -> string -> bool
}.

(** The two encoded segments the signature covers. *)
Definition signing_input (F : conventions) (h : TokenHeader) (p : TokenPayload) : string :=
  b64url_encode (header_json F h) +:+ "." +:+ b64url_encode (payload_json F p).

(** Modelled from the spec: [mint] of section 4.1 (the source's
    [_make_jwt], defined in the missing module [ghost]). *)
Definition mint (F : conventions) (c : Credentials) (now : Z) : result AuthToken :=
  match unhex (secret c) with
  | None => Failed InvalidCredentialsError
  | Some key =>
      let h := {| algorithm := algorithm_name F; type := token_type F;
                  header_key_id := key_id c |} in
      let p := {| issued_at := now; expires_at := now + 300;
                  audience := admin_audience F |} in
      Ok {| header := h; payload := p;
            signature := hmac F key (list_byte_of_string (signing_input F h p)) |}
  end.

(** The token on the wire: three segments joined by dots. *)
Definition token_text (F : conventions) (t : AuthToken) : string :=
  signing_input F (header t) (payload t) +:+ "." +:+ b64url_encode (signature t).

(** A request, its path by segments, and what comes back. *)
Record request : Type := {
  method : string;
  path : list string;
  headers : list (string * string);
  body : option json
}.

Inductive reply : Type :=
  | Response (status : Z) (text : string)
  | NoResponse.

(** The remote service: a state and how it answers a request. *)
Record service : Type := {
  remote : Type;
  send : remote -> request -> reply * remote
}.

(** Modelled from the spec: how section 4.3 reads a reply. *)
Definition interpret (F : conventions) (r : reply) : result json :=
  match r with
  | NoResponse => Failed TransportError
  | Response status text =>
      if (200 <=? status) && (status <? 300) then
        match loads F text with
        | Some v => Ok v
        | None => Failed DecodeError
        end
      else if (status =? 401) || (status =? 403) then Failed AuthenticationError
      else if status =? 404 then Failed NotFoundError
      else Failed (RemoteApiError status (excerpt F text))
  end.

Definition signed_request (F : conventions) (t : AuthToken)
    (method : string) (path : list string) (body : option json) : request :=
  {| method := method; path := path;
     headers := [("Authorization", auth_scheme F +:+ " " +:+ token_text F t);
                 version_header F];
     body := body |}.

(** Modelled from the spec: [execute] of section 4.3.  Besides the result
    it gives the requests sent and the service's next state. *)
Definition execute (F : conventions) (S : service) (c : Credentials) (now : Z)
    (method : string) (path : list string) (body : option json) (s : remote S)
    : result json * list request * remote S :=
  match mint F c now with
  | Failed e => (Failed e, [], s)
  | Ok t =>
      let req := signed_request F t method path body in
      let (r, s') := send S s req in
      (interpret F r, [req], s')
  end.

(** Modelled from the spec: a resource operation of section 4.4: the
    Permission Gate of section 4.2 ([spec_check]) first, and the executor
    only if it allows. *)
Definition operation (F : conventions) (S : service) (kind : OperationKind)
    (policy : PolicyConfig) (c : Credentials) (now : Z)
    (method : string) (path : list string) (body : option json) (s : remote S)
    : result json * list request * remote S :=
  match spec_check kind policy with
  | Deny reason => (Failed (PermissionDeniedError reason), [], s)
  | Allow => execute F S c now method path body s
  end.

(** A partial update fails with [ConflictError] when the reply reports a
    stale-state mismatch. *)
Definition conflict_aware (F : conventions) (r : result json) : result json :=
  match r with
  | Failed (RemoteApiError status detail) =>
      if reports_stale F status detail then Failed ConflictError else r
  | _ => r
  end.

Definition status_patch (status : string) : gmap string json :=
  {[ "status" := JStr status ]}.

Definition partial_update (F : conventions) (S : service) (kind : OperationKind)
    (policy : PolicyConfig) (c : Credentials) (now : Z)
    (id : string) (patch : gmap string json) (s : remote S)
    : result json * list request * remote S :=
  let '(r, sent, s') :=
    operation F S kind policy c now "PUT" ["posts"; id] (Some (JObj patch)) s in
  (conflict_aware F r, sent, s').

(** Modelled from the spec: three operations of section 6's surface. *)
Definition deletePost (F : conventions) (S : service) (policy : PolicyConfig)
    (c : Credentials) (now : Z) (id : string) (s : remote S)
    : result json * list request * remote S :=
  operation F S Delete policy c now "DELETE" ["posts"; id] None s.

Definition publishPost (F : conventions) (S : service) (policy : PolicyConfig)
    (c : Credentials) (now : Z) (id : string) (s : remote S)
    : result json * list request * remote S :=
  partial_update F S Publish policy c now id (status_patch "published") s.

Definition unpublishPost (F : conventions) (S : service) (policy : PolicyConfig)
    (c : Credentials) (now : Z) (id : string) (s : remote S)
    : result json * list request * remote S :=
  partial_update F S Unpublish policy c now id (status_patch "draft") s.

(** Modelled from the spec: the resource envelope of section 3 and a
    partial update of it, the patch's members replacing the resource's. *)
Record ApiResource : Type := {
  resource_id : string;
  fields : gmap string json
}.

Definition apply_patch (patch : gmap string json) (r : ApiResource) : ApiResource :=
  {| resource_id := resource_id r; fields := patch ∪ fields r |}.

(** ** Reading a run *)

(** The operation kind of each client call (section 4.4: every named
    operation is classified). *)
Definition kind_of (c : call) : OperationKind :=
  match c with
  | GetSite | ListPosts _ _ _ | ListTags _ => Read
  | CreatePost _ _ _ | UpdatePost _ _ | CreateTag _ _ => Write
  | PublishPost _ => Publish
  | UnpublishPost _ => Unpublish
  | DeletePost _ | DeleteTag _ => Delete
  | ListMembers _ => MemberRead
  end.

Definition mutating_kind (k : OperationKind) : bool :=
  match k with
  | Read | MemberRead => false
  | Write | Publish | Unpublish | Delete => true
  end.

(** An event that changes the remote instance if it goes through. *)
Definition mutating (ev : event) : bool :=
  match ev with
  | ClientCall c => mutating_kind (kind_of c)
  | HttpDelete _ _ => true
  end.

(** The claim that the gate stands before every mutating event: each
    one is of a kind the decision allows under the given config. *)
Definition gate_respected (config : gmap string json) (evs : list event) : Prop :=
  Forall (fun ev =>
            mutating ev = true ->
            check (match ev with
                   | ClientCall c => kind_of c
                   | HttpDelete _ _ => Delete
                   end) (policy_of config) = Allow) evs.

(** The same world with other cleanup behaviour, and the same client with
    another config. *)
Definition with_cleanup (w : world) (pc tc : cleanup_env) : world :=
  {| CREDS_FILE := CREDS_FILE w; creds_exist := creds_exist w;
     new_client := new_client w; post_cleanup := pc; tag_cleanup := tc;
     log_file := log_file w; log_error := log_error w |}.

Definition with_cfg (gc : GhostClient) (config : gmap string json) : GhostClient :=
  {| cfg := config; api_url := api_url gc; get_site := get_site gc;
     list_posts := list_posts gc; list_tags := list_tags gc;
     create_post := create_post gc; update_post := update_post gc;
     publish_post := publish_post gc; unpublish_post := unpublish_post gc;
     create_tag := create_tag gc; delete_post := delete_post gc;
     delete_tag := delete_tag gc; list_members := list_members gc |}.

Definition with_client (w : world) (gc : GhostClient) : world :=
  {| CREDS_FILE := CREDS_FILE w; creds_exist := creds_exist w;
     new_client := Constructed gc; post_cleanup := post_cleanup w;
     tag_cleanup := tag_cleanup w; log_file := log_file w;
     log_error := log_error w |}.

(** [ro], as line 109 binds it. *)
Definition ro_of (gc : GhostClient) : json :=
  dict_get (cfg gc) "readonly_mode" (JBool false).

(** The keys of [config.json] with the defaults of section 6. *)
Definition config_defaults : list (string * bool) :=
  [("readonly_mode", false); ("allow_publish", true);
   ("allow_delete", false); ("allow_member_access", false)].

(** A list response in which [meta.pagination.total] is missing: [meta],
    [pagination] or [total] is absent from the object that should hold
    it. *)
Definition total_missing (result : json) : bool :=
  match result with
  | JObj d =>
      match d !! "meta" with
      | None => true
      | Some (JObj m) =>
          match m !! "pagination" with
          | None => true
          | Some (JObj p) =>
              match p !! "total" with
              | None => true
              | Some _ => false
              end
          | Some _ => false
          end
      | Some _ => false
      end
  | _ => false
  end.

(** Nothing the run has done so far can change the instance, and no
    test artifact is recorded. *)
Definition quiet (st : state) : Prop :=
  Forall (fun ev => mutating ev = false) (net st)
  /\ test_post_id st = JNull /\ test_tag_id st = JNull.

(** Two states that differ at most in what was printed and sent. *)
Definition same_results (st1 st2 : state) : Prop :=
  passed st1 = passed st2 /\ failed st1 = failed st2
  /\ skipped st1 = skipped st2 /\ entries st1 = entries st2
  /\ test_post_id st1 = test_post_id st2 /\ test_tag_id st1 = test_tag_id st2
  /\ log_lines st1 = log_lines st2.

(** [id] is the id of the artifact the call [made] created in this run:
    the call returned an object, its ["id"] is [id], and [id] counts as
    set. *)
Definition created (made : outcome json) (id : json) : Prop :=
  exists obj, made = Returns obj /\ py_get obj "id" JNull = Returns id
              /\ truthy id = true.

(** What stands behind an event of a run: a client call is of a kind
    the decision allows under the client's config; a DELETE the script
    sends itself is the cleanup of the test post or test tag created in
    this run, sent although the decision denies deletes with
    [allow_delete=false], in a run that is not read-only. *)
Definition sanctioned (str_compound : json -> string) (gc : GhostClient)
    (ev : event) : Prop :=
  match ev with
  | ClientCall c => check (kind_of c) (policy_of (cfg gc)) = Allow
  | HttpDelete url _ =>
      check Delete (policy_of (cfg gc)) = Deny "allow_delete=false"
      /\ readonly_mode (policy_of (cfg gc)) = false
      /\ ((exists id, created (create_post gc) id
                      /\ url = post_url str_compound gc id)
          \/ (exists id, created (create_tag gc) id
                         /\ url = tag_url str_compound gc id))
  end.

(** The invariant of a run: every event so far is sanctioned, and a test
    id that is set is the id of what this run created, in a run that is
    not read-only. *)
Definition tracked (str_compound : json -> string) (gc : GhostClient)
    (st : state) : Prop :=
  Forall (sanctioned str_compound gc) (net st)
  /\ (truthy (test_post_id st) = true ->
      readonly_mode (policy_of (cfg gc)) = false
      /\ created (create_post gc) (test_post_id st))
  /\ (truthy (test_tag_id st) = true ->
      readonly_mode (policy_of (cfg gc)) = false
      /\ created (create_tag gc) (test_tag_id st)).

(** ** Sample runs *)

Definition sample_clock (n : nat) : string := "t" +:+ pretty n.
Definition sample_str (v : json) : string := "<compound>".

(** A client with an empty config, hence all defaults, on an instance
    where every call succeeds. *)
Definition default_client : GhostClient :=
  {| cfg := ∅;
     api_url := "https://blog.example/ghost/api/admin";
     get_site := Returns (JObj {[ "title" := JStr "Blog"; "version" := JStr "5.8" ]});
     list_posts := Returns (JObj {[ "posts" := JArr [] ]});
     list_tags :=
       Returns (JObj {[ "meta" :=
                  JObj {[ "pagination" := JObj {[ "total" := JNum 3 ]} ]} ]});
     create_post := Returns (JObj {[ "id" := JStr "p1" ]});
     update_post := fun _ => Returns JNull;
     publish_post := fun _ => Returns JNull;
     unpublish_post := fun _ => Returns JNull;
     create_tag := Returns (JObj {[ "id" := JStr "t1" ]});
     delete_post := fun _ => Returns JNull;
     delete_tag := fun _ => Returns JNull;
     list_members := Returns (JObj ∅) |}.

Definition working_cleanup : cleanup_env :=
  {| import_requests := Returns tt;
     _make_jwt := Returns "token";
     requests_delete := fun _ _ => Returns tt |}.

Definition failing_cleanup : cleanup_env :=
  {| import_requests := Returns tt;
     _make_jwt := Returns "token";
     requests_delete := fun _ _ => Raises (PyExn "ConnectionError" "connection refused" eq_refl) |}.

Definition default_world : world :=
  {| CREDS_FILE := "/home/agent/.openclaw/secrets/ghost_creds";
     creds_exist := true;
     new_client := Constructed default_client;
     post_cleanup := working_cleanup;
     tag_cleanup := working_cleanup;
     log_file := "/skill/.skill-logs/init.jsonl";
     log_error := None |}.

(** The same instance behind a read-only config that also withholds
    publishing. *)
Definition readonly_client : GhostClient :=
  with_cfg default_client
    {[ "readonly_mode" := JBool true; "allow_publish" := JBool false ]}.

Definition readonly_world : world := with_client default_world readonly_client.

(** One choice of what the specification leaves open, for running the
    core: the names a Ghost admin token carries, a stand-in for the keyed
    hash and for the JSON parser. *)
Definition json_member (name value : string) : string :=
  dq +:+ name +:+ dq +:+ ":" +:+ value.

Definition json_text (s : string) : string := dq +:+ s +:+ dq.

Definition sample_conventions : conventions :=
  {| algorithm_name := "HS256";
     token_type := "JWT";
     admin_audience := "/admin/";
     header_json := fun h =>
       list_byte_of_string
         ("{" +:+ json_member "alg" (json_text (algorithm h)) +:+ ","
              +:+ json_member "typ" (json_text (type h)) +:+ ","
              +:+ json_member "kid" (json_text (header_key_id h)) +:+ "}");
     payload_json := fun p =>
       list_byte_of_string
         ("{" +:+ json_member "iat" (pretty (issued_at p)) +:+ ","
              +:+ json_member "exp" (pretty (expires_at p)) +:+ ","
              +:+ json_member "aud" (json_text (audience p)) +:+ "}");
     hmac := fun key message => key ++ firstn 4 message;
     auth_scheme := "Ghost";
     version_header := ("Accept-Version", "v5.0");
     loads := fun text => if String.eqb text EmptyString then None else Some (JObj ∅);
     excerpt := fun text => text;
     reports_stale := fun status _ => status =? 409 |}.

Definition sample_credentials : Credentials :=
  {| key_id := "64a1f0c2"; secret := "00ff10a7" |}.

(** A service that keeps posts by id and applies a PUT as a partial
    update, a DELETE as removal. *)
Definition serve (posts : gmap string ApiResource) (req : request)
    : reply * gmap string ApiResource :=
  match path req with
  | [collection; id] =>
      if negb (String.eqb collection "posts") then (Response 404 "{}", posts)
      else
        match posts !! id with
        | None => (Response 404 "{}", posts)
        | Some r =>
            if String.eqb (method req) "PUT" then
              match body req with
              | Some (JObj patch) =>
                  (Response 200 "{}", <[id := apply_patch patch r]> posts)
              | _ => (Response 422 "{}", posts)
              end
            else if String.eqb (method req) "DELETE" then
              (Response 204 EmptyString, delete id posts)
            else (Response 200 "{}", posts)
        end
  | _ => (Response 404 "{}", posts)
  end.

Definition blog : service := {| remote := gmap string ApiResource; send := serve |}.

Definition sample_post : ApiResource :=
  {| resource_id := "abc123";
     fields := {[ "title" := JStr "Hello"; "status" := JStr "draft";
                  "html" := JStr "<p>hi</p>" ]} |}.

Definition sample_posts : gmap string ApiResource := {[ "abc123" := sample_post ]}.

Definition open_policy : PolicyConfig :=
  {| readonly_mode := false; allow_publish := true;
     allow_delete := false; allow_member_access := false |}.

(** A service that rejects every request as unauthenticated. *)
Definition rejecting : service :=
  {| remote := unit; send := fun s _ => (Response 403 "{}", s) |}.

Definition deleting_policy : PolicyConfig :=
  {| readonly_mode := false; allow_publish := true;
     allow_delete := true; allow_member_access := false |}.

(** ** Steps of a run *)

(** What [main] does to its state, one primitive at a time: it prints, it
    calls out, it records a check through [Results.ok], [Results.fail] or
    [Results.skip], or it assigns a test id.  Appending to the log file
    is kept apart: only [write_log] does it. *)
Inductive step (clock : nat -> string) : state -> state -> Prop :=
  | step_print s st : step clock st (print s st)
  | step_print_noend s st : step clock st (print_noend s st)
  | step_emit ev st : step clock st (emit ev st)
  | step_ok label detail st : step clock st (ok clock label detail st)
  | step_fail label reason st : step clock st (fail clock label reason st)
  | step_skip label reason st : step clock st (skip clock label reason st)
  | step_set_test_post_id v st : step clock st (set_test_post_id v st)
  | step_set_test_tag_id v st : step clock st (set_test_tag_id v st).

Inductive reaches (clock : nat -> string) : state -> state -> Prop :=
  | reaches_here st : reaches clock st st
  | reaches_step st st' st'' :
      reaches clock st st' -> step clock st' st'' -> reaches clock st st''.

(** The entries of one status, by label. *)
Definition labels_of (status : string) (es : list entry) : list string :=
  map entry_check (filter (fun e => String.eqb (entry_status e) status) es).

(** [Results] is consistent: the three lists are the entries of their
    status in order, and the [k]-th entry carries the [k]-th reading of
    the clock. *)
Definition consistent (clock : nat -> string) (st : state) : Prop :=
  labels_of "pass" (entries st) = passed st
  /\ labels_of "fail" (entries st) = failed st
  /\ labels_of "skip" (entries st) = skipped st
  /\ map entry_ts (entries st) = map clock (seq 0 (length (entries st)))
  /\ Forall (fun e => In (entry_status e) ["pass"; "fail"; "skip"]) (entries st).

(** The connection check passes: [get_site] returns an object (lines
    118-119). *)
Definition connected (gc : GhostClient) : bool :=
  match get_site gc with
  | Returns (JObj _) => true
  | _ => false
  end.

(** The run gets past the pre-flight and the connection check. *)
Definition completes (w : world) : bool :=
  creds_exist w
  && match new_client w with
     | Constructed gc => connected gc
     | _ => false
     end.

Definition with_log_error (w : world) (err : option py_exn) : world :=
  {| CREDS_FILE := CREDS_FILE w; creds_exist := creds_exist w;
     new_client := new_client w; post_cleanup := post_cleanup w;
     tag_cleanup := tag_cleanup w; log_file := log_file w;
     log_error := err |}.

(** The id a create call leaves in the test id variable: the ["id"] of
    the object it returned, [None] when the call or the lookup raised
    (then the variable keeps its initial [None]). *)
Definition id_of (made : outcome json) : json :=
  match (obj <- made ;; py_get obj "id" JNull) with
  | Returns id => id
  | Raises _ => JNull
  end.

(** The request a cleanup [try] block sends, if it gets that far. *)
Definition cleanup_events (c : cleanup_env) (url : string) : list event :=
  match import_requests c, _make_jwt c with
  | Returns _, Returns token =>
      [HttpDelete url [("Authorization", "Ghost " +:+ token);
                       ("Accept-Version", "v5.0")]]
  | _, _ => []
  end.

(** The test ids of a run that completes. *)
Definition run_post_id (gc : GhostClient) : json :=
  if truthy (ro_of gc) then JNull else id_of (create_post gc).

Definition run_tag_id (gc : GhostClient) : json :=
  if truthy (ro_of gc) then JNull else id_of (create_tag gc).

(** The protocol of a run that completes: what it calls and sends, in
    order. *)
Definition publish_events (gc : GhostClient) : list event :=
  if allow_publish (policy_of (cfg gc)) && truthy (run_post_id gc)
  then [ClientCall (PublishPost (run_post_id gc));
        ClientCall (UnpublishPost (run_post_id gc))]
  else [].

Definition run_events (str_compound : json -> string) (w : world)
    (gc : GhostClient) : list event :=
  let policy := policy_of (cfg gc) in
  let post := run_post_id gc in
  let tag := run_tag_id gc in
  [ClientCall GetSite;
   ClientCall (ListPosts 1 "all" "id,title,status");
   ClientCall (ListTags 1)]
  ++ (if readonly_mode policy then []
      else [ClientCall (CreatePost TEST_TITLE
              "<p>Automated skill init check — safe to delete.</p>" "draft")])
  ++ (if truthy post
      then [ClientCall (UpdatePost post "init check excerpt")] else [])
  ++ publish_events gc
  ++ (if readonly_mode policy then []
      else [ClientCall (CreateTag TEST_TAG "skill init test — safe to delete")])
  ++ (if truthy post
      then if allow_delete policy then [ClientCall (DeletePost post)]
           else cleanup_events (post_cleanup w) (post_url str_compound gc post)
      else [])
  ++ (if truthy tag
      then if allow_delete policy then [ClientCall (DeleteTag tag)]
           else cleanup_events (tag_cleanup w) (tag_url str_compound gc tag)
      else [])
  ++ (if allow_member_access policy then [ClientCall (ListMembers 1)] else []).

(** An event that names an artifact names one this run created. *)
Definition own_artifact (str_compound : json -> string) (gc : GhostClient)
    (ev : event) : Prop :=
  match ev with
  | ClientCall (UpdatePost id _) | ClientCall (PublishPost id)
  | ClientCall (UnpublishPost id) | ClientCall (DeletePost id) =>
      created (create_post gc) id
  | ClientCall (DeleteTag id) => created (create_tag gc) id
  | HttpDelete url _ =>
      (exists id, created (create_post gc) id /\ url = post_url str_compound gc id)
      \/ (exists id, created (create_tag gc) id /\ url = tag_url str_compound gc id)
  | ClientCall _ => True
  end.

(** How far the lookup of the total gets in a response that holds one. *)
Definition total_of (result : json) : option json :=
  match result with
  | JObj d =>
      match d !! "meta" with
      | Some (JObj m) =>
          match m !! "pagination" with
          | Some (JObj p) => p !! "total"
          | _ => None
          end
      | _ => None
      end
  | _ => None
  end.

(** ** Reading the protocol and the verdicts *)

Definition is_http_delete (ev : event) : bool :=
  match ev with
  | HttpDelete _ _ => true
  | ClientCall _ => false
  end.

(** Whether a call came back. *)
Definition returns {A : Type} (o : outcome A) : bool :=
  match o with
  | Returns _ => true
  | Raises _ => false
  end.

(** A listing came back and its total could be looked up; a create call
    came back with something that has a [get]. *)
Definition read_ok (listing : outcome json) : bool :=
  returns (result <- listing ;; pagination_total result).

Definition create_ok (made : outcome json) : bool :=
  returns (obj <- made ;; py_get obj "id" JNull).

(** The checks a complete run fails, in order, read off what the
    instance did. *)
Definition failing_checks (gc : GhostClient) : list string :=
  let policy := policy_of (cfg gc) in
  let post := run_post_id gc in
  let tag := run_tag_id gc in
  (if read_ok (list_posts gc) then [] else ["Read posts"])
  ++ (if read_ok (list_tags gc) then [] else ["Read tags"])
  ++ (if readonly_mode policy || create_ok (create_post gc) then []
      else ["Write (create draft)"])
  ++ (if truthy post && negb (returns (update_post gc post))
      then ["Write (update post)"] else [])
  ++ (if allow_publish policy && truthy post
      then (if returns (publish_post gc post) then [] else ["Publish post"])
           ++ (if returns (unpublish_post gc post) then [] else ["Unpublish post"])
      else [])
  ++ (if readonly_mode policy || create_ok (create_tag gc) then []
      else ["Write (create tag)"])
  ++ (if allow_delete policy && truthy post
         && negb (returns (delete_post gc post))
      then ["Delete (post)"] else [])
  ++ (if allow_delete policy && truthy tag
         && negb (returns (delete_tag gc tag))
      then ["Delete (tag)"] else [])
  ++ (if allow_member_access policy && negb (read_ok (list_members gc))
      then ["Members (list)"] else []).

(** What [Results.summary] writes for a state: the count line, the
    skipped note, the end of the line, and the failed checks one by one. *)
Definition summary_text (st : state) : list string :=
  [nl +:+ "  " +:+ pretty (length (passed st)) +:+ "/"
      +:+ pretty (length (passed st) + length (failed st))%nat
      +:+ " checks passed"]
  ++ (if (0 <? length (skipped st))%nat
      then [", " +:+ pretty (length (skipped st))
              +:+ " skipped (disabled in config)"]
      else [])
  ++ [EmptyString +:+ nl]
  ++ match failed st with
     | [] => []
     | _ :: _ =>
         ((nl +:+ "  Failed checks:") +:+ nl)
         :: map (fun f => ("    ✗  " +:+ f) +:+ nl) (failed st)
     end.

(** An instance that cannot be reached, and one on which the tag listing
    and the unpublish call fail. *)
Definition offline_client : GhostClient :=
  {| cfg := ∅;
     api_url := "https://blog.example/ghost/api/admin";
     get_site := Raises (PyExn "GhostError" "connection refused" eq_refl);
     list_posts := list_posts default_client;
     list_tags := list_tags default_client;
     create_post := create_post default_client;
     update_post := update_post default_client;
     publish_post := publish_post default_client;
     unpublish_post := unpublish_post default_client;
     create_tag := create_tag default_client;
     delete_post := delete_post default_client;
     delete_tag := delete_tag default_client;
     list_members := list_members default_client |}.

Definition offline_world : world := with_client default_world offline_client.

Definition flaky_client : GhostClient :=
  {| cfg := ∅;
     api_url := "https://blog.example/ghost/api/admin";
     get_site := get_site default_client;
     list_posts := list_posts default_client;
     list_tags := Raises (PyExn "GhostError" "HTTP 500" eq_refl);
     create_post := create_post default_client;
     update_post := update_post default_client;
     publish_post := publish_post default_client;
     unpublish_post := fun _ => Raises (PyExn "GhostError" "HTTP 409" eq_refl);
     create_tag := create_tag default_client;
     delete_post := delete_post default_client;
     delete_tag := delete_tag default_client;
     list_members := list_members default_client |}.

Definition flaky_world : world := with_client default_world flaky_client.

(** ** The run under interrupts *)

(** The two test artifacts, and the three statements of a cleanup [try]
    block. *)
Inductive target : Type := TestPost | TestTag.

Inductive stage : Type := ImportRequests | MakeJwt | RequestsDelete.

(** A place where the script calls out: [GhostClient()], a call into the
    client, a statement of a cleanup block, the body of [write_log]. *)
Inductive site : Type :=
  | AtGhostClient
  | AtCall (c : call)
  | AtCleanup (t : target) (s : stage)
  | AtWriteLog.

(** How [main] ends: as before, or by an interrupt that no handler
    caught. *)
Inductive ending : Type :=
  | Ended (e : exit)
  | Interrupted (b : interrupt).


Section RunFull.

Variable clock : nat -> string.
Variable str_compound : json -> string.

(** [interrupts s] is what the call at [s] raises outside [Exception]
    when the run gets there, if anything.  Every handler of the script is
    an [except Exception] (lines 87, 120, 133, 140, 157, 165, 177, 183,
    196, 215, 225, 236, 246, 261), so such an exception leaves the [try]
    block, the section and [main]. *)
Variable interrupts : site -> option interrupt.

(** The call at [s]: interrupted, the run stops in the state [reached];
    otherwise it goes on as without interrupts. *)
Definition calling (s : site) (reached : state)
    (otherwise : option interrupt * state) : option interrupt * state :=
  match interrupts s with
  | Some b => (Some b, reached)
  | None => otherwise
  end.

Definition andthen (r : option interrupt * state)
    (k : state -> option interrupt * state) : option interrupt * state :=
  match r with
  | (Some b, st) => (Some b, st)
  | (None, st) => k st
  end.

(** [r] is the run to [uninterrupted], or a run that an interrupt
    stopped. *)
Definition runs_as (r : option interrupt * state) (uninterrupted : state) : Prop :=
  r = (None, uninterrupted)
  \/ exists s b st, interrupts s = Some b /\ r = (Some b, st).

Definition connect_full (gc : GhostClient) (st : state)
    : option interrupt * (option exit * state) :=
  match interrupts (AtCall GetSite) with
  | Some b =>
      (Some b, (None, emit (ClientCall GetSite)
                        (print (nl +:+ "● Connection" +:+ nl) st)))
  | None => (None, connect clock str_compound gc st)
  end.

Definition read_posts_full (gc : GhostClient) (st : state)
    : option interrupt * state :=
  calling (AtCall (ListPosts 1 "all" "id,title,status"))
    (emit (ClientCall (ListPosts 1 "all" "id,title,status")) st)
    (None, read_posts clock str_compound gc st).

Definition read_tags_full (gc : GhostClient) (st : state)
    : option interrupt * state :=
  calling (AtCall (ListTags 1)) (emit (ClientCall (ListTags 1)) st)
    (None, read_tags clock str_compound gc st).

Definition write_draft_full (gc : GhostClient) (ro : json) (st : state)
    : option interrupt * state :=
  let uninterrupted := (None, write_draft clock str_compound gc ro st) in
  if truthy ro then uninterrupted
  else
    let c := CreatePost TEST_TITLE
               "<p>Automated skill init check — safe to delete.</p>" "draft" in
    calling (AtCall c) (emit (ClientCall c) st) uninterrupted.

Definition update_draft_full (gc : GhostClient) (ro : json) (st : state)
    : option interrupt * state :=
  let uninterrupted := (None, update_draft clock gc ro st) in
  if truthy (test_post_id st) && negb (truthy ro) then
    let c := UpdatePost (test_post_id st) "init check excerpt" in
    calling (AtCall c) (emit (ClientCall c) st) uninterrupted
  else uninterrupted.

Definition publish_unpublish_full (gc : GhostClient) (ro : json) (st : state)
    : option interrupt * state :=
  let uninterrupted := (None, publish_unpublish clock gc ro st) in
  if negb (truthy (dict_get (cfg gc) "allow_publish" (JBool true))) then uninterrupted
  else if truthy ro then uninterrupted
  else if truthy (test_post_id st) then
    let called := emit (ClientCall (PublishPost (test_post_id st))) st in
    calling (AtCall (PublishPost (test_post_id st))) called
      (let published :=
         match publish_post gc (test_post_id st) with
         | Returns _ => ok clock "Publish post" EmptyString called
         | Raises e => fail clock "Publish post" (exn_str e) called
         end in
       calling (AtCall (UnpublishPost (test_post_id st)))
         (emit (ClientCall (UnpublishPost (test_post_id st))) published)
         uninterrupted)
  else uninterrupted.

Definition write_tag_full (gc : GhostClient) (ro : json) (st : state)
    : option interrupt * state :=
  let uninterrupted := (None, write_tag clock str_compound gc ro st) in
  if truthy ro then uninterrupted
  else
    let c := CreateTag TEST_TAG "skill init test — safe to delete" in
    calling (AtCall c) (emit (ClientCall c) st) uninterrupted.

(** A cleanup [try] block: an interrupt in any of its three statements
    passes the [except Exception]. *)
Definition cleanup_full (t : target) (c : cleanup_env) (url warning : string)
    (st : state) : option interrupt * state :=
  calling (AtCleanup t ImportRequests) st
    match import_requests c with
    | Raises _ => (None, print warning st)
    | Returns _ =>
        calling (AtCleanup t MakeJwt) st
          match _make_jwt c with
          | Raises _ => (None, print warning st)
          | Returns token =>
              let headers := [("Authorization", "Ghost " +:+ token);
                              ("Accept-Version", "v5.0")] in
              let sent := emit (HttpDelete url headers) st in
              calling (AtCleanup t RequestsDelete) sent
                match requests_delete c url headers with
                | Raises _ => (None, print warning sent)
                | Returns _ => (None, sent)
                end
          end
    end.

Definition delete_section_full (w : world) (gc : GhostClient) (ro : json)
    (st : state) : option interrupt * state :=
  let st := print (nl +:+ "● Delete permissions" +:+ nl) st in
  if negb (truthy (dict_get (cfg gc) "allow_delete" (JBool false))) then
    let st := skip clock "Delete (post)" "allow_delete=false" st in
    let st := skip clock "Delete (tag)" "allow_delete=false" st in
    andthen
      (if truthy (test_post_id st) then
         cleanup_full TestPost (post_cleanup w)
           (post_url str_compound gc (test_post_id st))
           ("  ⚠  Test post " +:+ py_str str_compound (test_post_id st)
              +:+ " could not be cleaned up. Delete manually.") st
       else (None, st))
      (fun st =>
         if truthy (test_tag_id st) then
           cleanup_full TestTag (tag_cleanup w)
             (tag_url str_compound gc (test_tag_id st))
             ("  ⚠  Test tag " +:+ py_str str_compound (test_tag_id st)
                +:+ " could not be cleaned up. Delete manually.") st
         else (None, st))
  else if truthy ro then
    let st := skip clock "Delete (post)" "readonly_mode=true" st in
    (None, skip clock "Delete (tag)" "readonly_mode=true" st)
  else
    andthen
      (if truthy (test_post_id st) then
         let called := emit (ClientCall (DeletePost (test_post_id st))) st in
         calling (AtCall (DeletePost (test_post_id st))) called
           (None,
            match delete_post gc (test_post_id st) with
            | Returns _ =>
                ok clock "Delete (post)" EmptyString (set_test_post_id JNull called)
            | Raises e => fail clock "Delete (post)" (exn_str e) called
            end)
       else (None, skip clock "Delete (post)" "no test post to delete" st))
      (fun st =>
         if truthy (test_tag_id st) then
           let called := emit (ClientCall (DeleteTag (test_tag_id st))) st in
           calling (AtCall (DeleteTag (test_tag_id st))) called
             (None,
              match delete_tag gc (test_tag_id st) with
              | Returns _ =>
                  ok clock "Delete (tag)" EmptyString (set_test_tag_id JNull called)
              | Raises e => fail clock "Delete (tag)" (exn_str e) called
              end)
         else (None, skip clock "Delete (tag)" "no test tag to delete" st)).

Definition members_full (gc : GhostClient) (st : state)
    : option interrupt * state :=
  let uninterrupted := (None, members clock str_compound gc st) in
  if negb (truthy (dict_get (cfg gc) "allow_member_access" (JBool false)))
  then uninterrupted
  else
    calling (AtCall (ListMembers 1))
      (emit (ClientCall (ListMembers 1))
         (print (nl +:+ "● Optional permissions" +:+ nl) st))
      uninterrupted.

Definition checks_full (w : world) (gc : GhostClient) (ro : json) (st : state)
    : option interrupt * state :=
  andthen (read_posts_full gc (print (nl +:+ "● Read permissions" +:+ nl) st))
    (fun st =>
  andthen (read_tags_full gc st)
    (fun st =>
  andthen (write_draft_full gc ro (print (nl +:+ "● Write permissions" +:+ nl) st))
    (fun st =>
  andthen (update_draft_full gc ro st)
    (fun st =>
  andthen (publish_unpublish_full gc ro st)
    (fun st =>
  andthen (write_tag_full gc ro st)
    (fun st =>
  andthen (delete_section_full w gc ro st)
    (fun st => members_full gc st))))))).

(** The summary is printed before [write_log] runs; an interrupt in
    [write_log] passes its [except Exception] (line 87). *)
Definition finish_full (w : world) (st : state) : ending * state :=
  match interrupts AtWriteLog with
  | Some b =>
      (Interrupted b,
       summary
         (print "└─────────────────────────────────────────┘"
            (print "│   Init check complete                   │"
               (print (nl +:+ "┌─────────────────────────────────────────┐") st))))
  | None => (Ended (fst (finish clock w st)), snd (finish clock w st))
  end.

Definition main_full (w : world) : ending * state :=
  let st := print "┌─────────────────────────────────────────┐" initial in
  let st := print "│   Ghost Skill — Init Check              │" st in
  let st := print "└─────────────────────────────────────────┘" st in
  if negb (creds_exist w) then
    let st := print (nl +:+ "✗ Credentials not found: " +:+ CREDS_FILE w) st in
    let st := print "  Run setup.py first:  python3 scripts/setup.py" st in
    (Ended (Exit 1), st)
  else
    match interrupts AtGhostClient with
    | Some b => (Interrupted b, st)
    | None =>
        match new_client w with
        | RaisesGhostError e => (Ended (Exit 1), print (nl +:+ "✗ " +:+ exn_str e) st)
        | RaisesOther e => (Ended (Uncaught e), st)
        | Constructed gc =>
            let ro := dict_get (cfg gc) "readonly_mode" (JBool false) in
            match connect_full gc st with
            | (Some b, (_, st)) => (Interrupted b, st)
            | (None, (Some code, st)) => (Ended code, st)
            | (None, (None, st)) =>
                match checks_full w gc ro st with
                | (Some b, st) => (Interrupted b, st)
                | (None, st) => finish_full w st
                end
            end
        end
    end.

End RunFull.


(** A [KeyboardInterrupt], and the worlds in which it strikes one call
    only. *)
Definition keyboard_interrupt : interrupt :=
  Interrupt "KeyboardInterrupt" EmptyString eq_refl.


Definition interrupt_get_site (s : site) : option interrupt :=
  match s with
  | AtCall GetSite => Some keyboard_interrupt
  | _ => None
  end.

Definition interrupt_write_log (s : site) : option interrupt :=
  match s with
  | AtWriteLog => Some keyboard_interrupt
  | _ => None
  end.

(** * Properties *)

(** ** The permission decision *)

Section GateFacts.

Lemma check_total (kind : OperationKind) (policy : PolicyConfig) :
  check kind policy = Allow \/ exists reason, check kind policy = Deny reason.
Proof. destruct (check kind policy) as [|reason]; [left | right; exists reason]; reflexivity. Qed.

(** A denial always carries one of the four reasons the script records. *)
Lemma check_reasons (kind : OperationKind) (policy : PolicyConfig) (reason : string) :
  check kind policy = Deny reason ->
  In reason ["readonly_mode=true"; "allow_publish=false";
             "allow_delete=false"; "allow_member_access=false"].
Proof.
  destruct policy as [ro ap ad am]; destruct kind, ro, ap, ad, am; simpl;
    intros H; inversion H; auto 6.
Qed.

(** C2, as stated, fails: with [readonly_mode] and without
    [allow_publish], the publish decision names [allow_publish=false],
    where the table of section 4.2 names [readonly_mode]; the script
    records that reason at line 170. *)
Lemma check_publish_readonly_reason :
  let policy := {| readonly_mode := true; allow_publish := false;
                   allow_delete := false; allow_member_access := false |} in
  policy_of (cfg readonly_client) = policy
  /\ check Publish policy = Deny "allow_publish=false"
  /\ spec_check Publish policy = Deny "readonly_mode"
  /\ check Publish policy <> spec_check Publish policy
  /\ entries (publish_unpublish sample_clock readonly_client
                (ro_of readonly_client) initial)
     = [Entry "t0" "skip" "Publish / Unpublish" "allow_publish=false"].
Proof.
  cbv zeta. split; [vm_compute; reflexivity|].
  split; [reflexivity|]. split; [reflexivity|].
  split; [discriminate|]. vm_compute. reflexivity.
Qed.

(** C2, amended: the decision is total and allows exactly what the table
    of section 4.2 allows; without [readonly_mode] it is that table,
    reason included; with [readonly_mode] a kind's own flag is tested
    first and names the reason, and only then [readonly_mode], whose
    reason is [readonly_mode=true]. *)
Theorem check_precedence (kind : OperationKind) (policy : PolicyConfig) :
  (check kind policy = Allow \/ exists reason, check kind policy = Deny reason)
  /\ allowed (check kind policy) = allowed (spec_check kind policy)
  /\ (readonly_mode policy = false -> check kind policy = spec_check kind policy)
  /\ (readonly_mode policy = true ->
      check kind policy =
        match kind with
        | Read => Allow
        | MemberRead =>
            if allow_member_access policy then Allow
            else Deny "allow_member_access=false"
        | Publish | Unpublish =>
            if allow_publish policy then Deny "readonly_mode=true"
            else Deny "allow_publish=false"
        | Delete =>
            if allow_delete policy then Deny "readonly_mode=true"
            else Deny "allow_delete=false"
        | Write => Deny "readonly_mode=true"
        end).
Proof.
  split; [apply check_total|].
  destruct policy as [ro ap ad am].
  destruct kind, ro, ap, ad, am; simpl; repeat split; intros; congruence.
Qed.

(** The precedence at a read-only policy that withholds deletes. *)
Lemma check_precedence_witness :
  check Delete {| readonly_mode := true; allow_publish := true;
                  allow_delete := false; allow_member_access := false |}
  = Deny "allow_delete=false".
Proof.
  pose proof (check_precedence Delete
                {| readonly_mode := true; allow_publish := true;
                   allow_delete := false; allow_member_access := false |})
    as (_ & _ & _ & H).
  exact (H eq_refl).
Defined.

(** Under the table of section 4.2 a denied delete names
    [allow_delete=false] only when [readonly_mode] is off; [check] names
    it always. *)
Lemma delete_reason_by_table (policy : PolicyConfig) :
  allow_delete policy = false ->
  check Delete policy = Deny "allow_delete=false"
  /\ spec_check Delete policy
     = Deny (if readonly_mode policy then "readonly_mode" else "allow_delete=false").
Proof.
  destruct policy as [ro ap ad am]. cbn [allow_delete readonly_mode].
  intros ->. destruct ro; split; reflexivity.
Qed.

End GateFacts.

(** ** The run of the script *)

Ltac run_simpl :=
  cbn [passed failed skipped entries test_post_id test_tag_id out net log_lines
       ok fail skip print print_noend emit _record push_passed push_failed
       push_skipped set_test_post_id set_test_tag_id] in *.

Section RunFacts.

Variable clock : nat -> string.
Variable str_compound : json -> string.

(** *** The sections follow the decision *)

Lemma write_draft_denied gc st reason :
  check Write (policy_of (cfg gc)) = Deny reason ->
  write_draft clock str_compound gc (ro_of gc) st
  = skip clock "Write (create draft)" reason st.
Proof.
  unfold check, policy_of, cfg_flag, write_draft, ro_of. cbn [readonly_mode].
  destruct (truthy _); intros H; inversion H; reflexivity.
Qed.

Lemma write_tag_denied gc st reason :
  check Write (policy_of (cfg gc)) = Deny reason ->
  write_tag clock str_compound gc (ro_of gc) st
  = skip clock "Write (create tag)" reason st.
Proof.
  unfold check, policy_of, cfg_flag, write_tag, ro_of. cbn [readonly_mode].
  destruct (truthy _); intros H; inversion H; reflexivity.
Qed.

Lemma publish_unpublish_denied gc st reason :
  check Publish (policy_of (cfg gc)) = Deny reason ->
  publish_unpublish clock gc (ro_of gc) st
  = skip clock "Publish / Unpublish" reason st.
Proof.
  unfold check, policy_of, cfg_flag, publish_unpublish, ro_of.
  cbn [readonly_mode allow_publish].
  destruct (truthy (dict_get (cfg gc) "allow_publish" _)); cbn [negb];
    [destruct (truthy (dict_get (cfg gc) "readonly_mode" _))|];
    intros H; inversion H; reflexivity.
Qed.

Lemma members_denied gc st reason :
  check MemberRead (policy_of (cfg gc)) = Deny reason ->
  members clock str_compound gc st
  = skip clock "Members (list)" reason
      (print (nl +:+ "● Optional permissions" +:+ nl) st).
Proof.
  unfold check, policy_of, cfg_flag, members. cbn [allow_member_access].
  destruct (truthy _); cbn [negb]; intros H; inversion H; reflexivity.
Qed.

(** A denied delete records both skips under the decision's reason; what
    follows them when the reason is [allow_delete=false] is the cleanup,
    which changes neither list. *)
Lemma cleanup_keeps_results c url warning st :
  let st' := cleanup c url warning st in
  passed st' = passed st /\ failed st' = failed st /\ skipped st' = skipped st
  /\ entries st' = entries st /\ test_post_id st' = test_post_id st
  /\ test_tag_id st' = test_tag_id st /\ log_lines st' = log_lines st.
Proof.
  unfold cleanup.
  destruct (import_requests c); [destruct (_make_jwt c);
    [destruct (requests_delete c _ _)|]|]; run_simpl; repeat split.
Qed.

Lemma delete_section_denied w gc st reason :
  check Delete (policy_of (cfg gc)) = Deny reason ->
  skipped (delete_section clock str_compound w gc (ro_of gc) st)
  = skipped st ++ ["Delete (post)"; "Delete (tag)"]
  /\ entries (delete_section clock str_compound w gc (ro_of gc) st)
     = entries st
       ++ [Entry (clock (length (entries st))) "skip" "Delete (post)" reason;
           Entry (clock (S (length (entries st)))) "skip" "Delete (tag)" reason].
Proof.
  unfold check, policy_of, cfg_flag, delete_section, ro_of.
  cbn [readonly_mode allow_delete].
  destruct (truthy (dict_get (cfg gc) "allow_delete" _)); cbn [negb];
    [destruct (truthy (dict_get (cfg gc) "readonly_mode" _))|];
    intros H; inversion H; subst.
  - run_simpl. rewrite <- !app_assoc, length_app, Nat.add_1_r. auto.
  - match goal with
    | |- context [if truthy (test_tag_id ?s) then cleanup ?c ?u ?m ?s else ?s] =>
        assert (Ht : skipped (if truthy (test_tag_id s) then cleanup c u m s else s)
                     = skipped s
                     /\ entries (if truthy (test_tag_id s) then cleanup c u m s else s)
                        = entries s)
          by (destruct (truthy (test_tag_id s));
              [pose proof (cleanup_keeps_results c u m s) as (_ & _ & ? & ? & _)|];
              auto)
    end.
    destruct Ht as [-> ->].
    match goal with
    | |- context [if truthy (test_post_id ?s) then cleanup ?c ?u ?m ?s else ?s] =>
        assert (Hp : skipped (if truthy (test_post_id s) then cleanup c u m s else s)
                     = skipped s
                     /\ entries (if truthy (test_post_id s) then cleanup c u m s else s)
                        = entries s)
          by (destruct (truthy (test_post_id s));
              [pose proof (cleanup_keeps_results c u m s) as (_ & _ & ? & ? & _)|];
              auto)
    end.
    destruct Hp as [-> ->].
    run_simpl. rewrite <- !app_assoc, length_app, Nat.add_1_r. auto.
Qed.

(** *** Pagination totals *)

Lemma pagination_total_missing result :
  total_missing result = true -> pagination_total result = Returns (JStr "?").
Proof.
  unfold total_missing, pagination_total.
  destruct result as [| | | | |d]; try discriminate.
  cbn [py_get obind]. unfold dict_get.
  destruct (d !! "meta") as [[| | | | |m]|]; try discriminate.
  - cbn [py_get obind]. unfold dict_get.
    destruct (m !! "pagination") as [[| | | | |p]|]; try discriminate.
    + cbn [py_get obind]. unfold dict_get.
      destruct (p !! "total"); [discriminate | reflexivity].
    + intros _. cbn [py_get obind]. unfold dict_get.
      rewrite lookup_empty. reflexivity.
  - intros _. cbn [py_get obind]. unfold dict_get.
    rewrite !lookup_empty. reflexivity.
Qed.

Lemma total_missing_dict result :
  total_missing result = true -> exists d, result = JObj d.
Proof. destruct result; try discriminate. eauto. Qed.

(** C6: a list response in which [meta.pagination.total] is missing is
    read as the total ["?"], and the check passes with it: for the posts,
    the tags and the members alike no exception comes out of the
    lookup. *)
Theorem missing_total_is_unknown (gc : GhostClient) (result : json) (st : state) :
  total_missing result = true ->
  pagination_total result = Returns (JStr "?")
  /\ (list_posts gc = Returns result ->
      read_posts clock str_compound gc st
      = ok clock "Read posts" "? post(s) on this instance"
          (emit (ClientCall (ListPosts 1 "all" "id,title,status")) st))
  /\ (list_tags gc = Returns result ->
      read_tags clock str_compound gc st
      = ok clock "Read tags" "? tag(s) on this instance"
          (emit (ClientCall (ListTags 1)) st))
  /\ (list_members gc = Returns result ->
      cfg_flag (cfg gc) "allow_member_access" false = true ->
      members clock str_compound gc st
      = ok clock "Members (list)" "? member(s)"
          (emit (ClientCall (ListMembers 1))
             (print (nl +:+ "● Optional permissions" +:+ nl) st))).
Proof.
  intros Hmiss.
  pose proof (pagination_total_missing _ Hmiss) as Htotal.
  destruct (total_missing_dict _ Hmiss) as [d ->].
  split; [exact Htotal|].
  split; [|split].
  - intros Hcall. unfold read_posts. rewrite Hcall.
    cbn [obind py_get]. rewrite Htotal. reflexivity.
  - intros Hcall. unfold read_tags. rewrite Hcall.
    cbn [obind]. rewrite Htotal. reflexivity.
  - intros Hcall Hflag. unfold members. unfold cfg_flag in Hflag.
    rewrite Hflag, Hcall. cbn [negb obind]. rewrite Htotal. reflexivity.
Qed.

(** A total that is there is printed as it is. *)
Lemma pagination_total_present d m p total :
  d !! "meta" = Some (JObj m) -> m !! "pagination" = Some (JObj p) ->
  p !! "total" = Some total ->
  pagination_total (JObj d) = Returns total.
Proof.
  intros Hd Hm Hp. unfold pagination_total. cbn [py_get obind].
  unfold dict_get. rewrite Hd. cbn [py_get obind]. unfold dict_get.
  rewrite Hm. cbn [py_get obind]. unfold dict_get. rewrite Hp. reflexivity.
Qed.

(** Outside the reading of C6: a [meta] that is present but is no object
    has no [get], and the check fails with the [AttributeError]. *)
Example read_posts_null_meta gc st :
  list_posts gc = Returns (JObj {[ "meta" := JNull ]}) ->
  read_posts clock str_compound gc st
  = fail clock "Read posts" "'NoneType' object has no attribute 'get'"
      (emit (ClientCall (ListPosts 1 "all" "id,title,status")) st).
Proof. intros H. unfold read_posts. rewrite H. reflexivity. Qed.

(** *** Config defaults *)

Lemma dict_get_default_insert (config : gmap string json) key default k d :
  In (key, default) config_defaults -> In (k, d) config_defaults ->
  config !! key = None ->
  dict_get (<[key := JBool default]> config) k (JBool d)
  = dict_get config k (JBool d).
Proof.
  intros Hkey Hk Habsent. unfold dict_get.
  destruct (decide (key = k)) as [<-|Hne].
  - rewrite lookup_insert_eq, Habsent. f_equal.
    unfold config_defaults in Hkey, Hk. cbn [In] in Hkey, Hk.
    repeat match goal with
           | H : _ \/ _ |- _ => destruct H
           | H : False |- _ => destruct H
           | H : (_, _) = (_, _) |- _ => inversion H; clear H; subst
           end; congruence.
  - rewrite lookup_insert_ne by exact Hne. reflexivity.
Qed.

(** [main] reads the config through the four lookups only. *)
Section SameFlags.

Variables (gc : GhostClient) (config : gmap string json).
Hypothesis same_flags :
  forall k d, In (k, d) config_defaults ->
              dict_get config k (JBool d) = dict_get (cfg gc) k (JBool d).

Lemma same_flag k d :
  In (k, d) config_defaults ->
  dict_get (cfg (with_cfg gc config)) k (JBool d) = dict_get (cfg gc) k (JBool d).
Proof. exact (same_flags k d). Qed.

Lemma publish_unpublish_same_flags ro st :
  publish_unpublish clock (with_cfg gc config) ro st
  = publish_unpublish clock gc ro st.
Proof.
  unfold publish_unpublish.
  rewrite (same_flag "allow_publish" true) by (cbn; tauto). reflexivity.
Qed.

Lemma delete_section_same_flags w ro st :
  delete_section clock str_compound w (with_cfg gc config) ro st
  = delete_section clock str_compound w gc ro st.
Proof.
  unfold delete_section.
  rewrite (same_flag "allow_delete" false) by (cbn; tauto). reflexivity.
Qed.

Lemma members_same_flags st :
  members clock str_compound (with_cfg gc config) st
  = members clock str_compound gc st.
Proof.
  unfold members.
  rewrite (same_flag "allow_member_access" false) by (cbn; tauto). reflexivity.
Qed.

Lemma checks_same_flags w ro st :
  checks clock str_compound w (with_cfg gc config) ro st
  = checks clock str_compound w gc ro st.
Proof.
  unfold checks. cbv zeta.
  rewrite members_same_flags, delete_section_same_flags,
    publish_unpublish_same_flags.
  reflexivity.
Qed.

Lemma main_reads_four_keys w :
  main clock str_compound (with_client w (with_cfg gc config))
  = main clock str_compound (with_client w gc).
Proof.
  unfold main. cbv zeta. cbn [new_client with_client creds_exist CREDS_FILE].
  destruct (creds_exist w); cbn [negb]; [|reflexivity].
  rewrite (same_flag "readonly_mode" false) by (cbn; tauto).
  change (connect clock str_compound (with_cfg gc config))
    with (connect clock str_compound gc).
  destruct (connect clock str_compound gc _) as [[code|] st]; [reflexivity|].
  rewrite checks_same_flags. reflexivity.
Qed.

End SameFlags.

(** C8: a key that is absent from the config stands for its default:
    [readonly_mode] false, [allow_publish] true, [allow_delete] false,
    [allow_member_access] false; and the run is the run of the config
    that spells the default out. *)
Theorem absent_key_defaults (w : world) (gc : GhostClient) :
  (cfg gc !! "readonly_mode" = None -> readonly_mode (policy_of (cfg gc)) = false)
  /\ (cfg gc !! "allow_publish" = None -> allow_publish (policy_of (cfg gc)) = true)
  /\ (cfg gc !! "allow_delete" = None -> allow_delete (policy_of (cfg gc)) = false)
  /\ (cfg gc !! "allow_member_access" = None ->
      allow_member_access (policy_of (cfg gc)) = false)
  /\ (forall key default,
        In (key, default) config_defaults -> cfg gc !! key = None ->
        main clock str_compound
          (with_client w (with_cfg gc (<[key := JBool default]> (cfg gc))))
        = main clock str_compound (with_client w gc)).
Proof.
  unfold policy_of, cfg_flag, dict_get.
  cbn [readonly_mode allow_publish allow_delete allow_member_access].
  repeat split; try (intros ->; reflexivity).
  intros key default Hkey Habsent.
  apply main_reads_four_keys. intros k d Hk.
  apply dict_get_default_insert; assumption.
Qed.

(** *** What printing, the summary and the log leave alone *)

Lemma print_all_frame (l : list string) (st : state) :
  let st' := fold_left (fun st f => print ("    ✗  " +:+ f) st) l st in
  same_results st' st /\ net st' = net st.
Proof.
  revert st. induction l as [|f l IH]; intros st; cbn [fold_left].
  - unfold same_results. tauto.
  - destruct (IH (print ("    ✗  " +:+ f) st)) as [Hres Hnet].
    unfold same_results in *. run_simpl. tauto.
Qed.

Lemma summary_frame (st : state) :
  same_results (summary st) st /\ net (summary st) = net st.
Proof.
  unfold summary. cbv zeta.
  destruct (0 <? length (skipped st))%nat; run_simpl.
  - destruct (failed st) eqn:Hf; [unfold same_results; run_simpl; tauto|].
    match goal with |- context [fold_left ?f ?l ?s] =>
      destruct (print_all_frame l s) as [Hres Hnet] end.
    unfold same_results in *. run_simpl. rewrite Hnet. tauto.
  - destruct (failed st) eqn:Hf; [unfold same_results; run_simpl; tauto|].
    match goal with |- context [fold_left ?f ?l ?s] =>
      destruct (print_all_frame l s) as [Hres Hnet] end.
    unfold same_results in *. run_simpl. rewrite Hnet. tauto.
Qed.

Lemma write_log_frame file err (st : state) :
  let st' := write_log clock file err st in
  passed st' = passed st /\ failed st' = failed st /\ skipped st' = skipped st
  /\ entries st' = entries st /\ test_post_id st' = test_post_id st
  /\ test_tag_id st' = test_tag_id st /\ net st' = net st.
Proof. unfold write_log. destruct err; run_simpl; tauto. Qed.

(** [finish] sends nothing and touches neither test id. *)
Lemma finish_frame w (st : state) :
  let st' := snd (finish clock w st) in
  net st' = net st /\ test_post_id st' = test_post_id st
  /\ test_tag_id st' = test_tag_id st /\ passed st' = passed st
  /\ skipped st' = skipped st /\ failed st' = failed st.
Proof.
  unfold finish. cbv zeta.
  match goal with |- context [write_log clock ?f ?e ?s] =>
    destruct (write_log_frame f e s) as (Hp & Hf & Hs & He & Hpi & Hti & Hn);
    cbv zeta in Hp, Hf, Hs, He, Hpi, Hti, Hn;
    set (logged := write_log clock f e s) in *
  end.
  match type of Hn with _ = net (summary ?s) =>
    destruct (summary_frame s) as [(Sp & Sf & Ss & Se & Spi & Sti & _) Sn];
    set (summed := summary s) in *
  end.
  run_simpl.
  destruct (failed logged) eqn:Hfailed; cbn [snd]; run_simpl;
    repeat split; congruence.
Qed.

(** *** Read-only runs *)

Lemma quiet_frame (st st' : state) :
  net st' = net st -> test_post_id st' = test_post_id st ->
  test_tag_id st' = test_tag_id st -> quiet st -> quiet st'.
Proof. unfold quiet. intros -> -> ->. tauto. Qed.

Lemma quiet_emit (ev : event) (st : state) :
  mutating ev = false -> quiet st -> quiet (emit ev st).
Proof.
  unfold quiet. run_simpl. intros Hev (Hnet & Hp & Ht).
  repeat split; try assumption.
  apply Forall_app; split; [assumption | constructor; [exact Hev | constructor]].
Qed.

Lemma read_posts_quiet gc st :
  quiet st ->
  quiet (read_posts clock str_compound gc st)
  /\ skipped (read_posts clock str_compound gc st) = skipped st.
Proof.
  intros Hq. unfold read_posts. cbv zeta.
  destruct (obind _ _); run_simpl;
    (split; [|reflexivity]);
    (eapply quiet_frame; [| | |apply (quiet_emit (ClientCall (ListPosts 1 "all" "id,title,status")) st eq_refl Hq)]);
    reflexivity.
Qed.

Lemma read_tags_quiet gc st :
  quiet st ->
  quiet (read_tags clock str_compound gc st)
  /\ skipped (read_tags clock str_compound gc st) = skipped st.
Proof.
  intros Hq. unfold read_tags. cbv zeta.
  destruct (obind _ _); run_simpl;
    (split; [|reflexivity]);
    (eapply quiet_frame; [| | |apply (quiet_emit (ClientCall (ListTags 1)) st eq_refl Hq)]);
    reflexivity.
Qed.

Lemma members_quiet gc st :
  quiet st ->
  quiet (members clock str_compound gc st)
  /\ forall l, In l (skipped st) -> In l (skipped (members clock str_compound gc st)).
Proof.
  intros Hq. unfold members. cbv zeta.
  destruct (negb _).
  - split; [eapply quiet_frame; [| | |exact Hq]; reflexivity|].
    intros l Hl. run_simpl. apply in_or_app. left. exact Hl.
  - destruct (obind _ _); run_simpl;
      (split; [|intros l Hl; exact Hl]);
      (eapply quiet_frame; [| | |apply (quiet_emit (ClientCall (ListMembers 1)) st eq_refl Hq)]);
      reflexivity.
Qed.

Section ReadonlyRun.

Variables (w : world) (gc : GhostClient) (ro : json).
Hypothesis ro_on : truthy ro = true.

Lemma write_draft_readonly st :
  write_draft clock str_compound gc ro st
  = skip clock "Write (create draft)" "readonly_mode=true" st.
Proof. unfold write_draft. rewrite ro_on. reflexivity. Qed.

Lemma update_draft_readonly st :
  update_draft clock gc ro st = st.
Proof. unfold update_draft. rewrite ro_on, andb_false_r. reflexivity. Qed.

Lemma publish_unpublish_readonly st :
  exists reason,
    publish_unpublish clock gc ro st = skip clock "Publish / Unpublish" reason st.
Proof.
  unfold publish_unpublish. rewrite ro_on.
  destruct (negb _); eexists; reflexivity.
Qed.

Lemma write_tag_readonly st :
  write_tag clock str_compound gc ro st
  = skip clock "Write (create tag)" "readonly_mode=true" st.
Proof. unfold write_tag. rewrite ro_on. reflexivity. Qed.

(** With no test id recorded the cleanup is not reached. *)
Lemma delete_section_readonly st :
  test_post_id st = JNull -> test_tag_id st = JNull ->
  exists reason,
    delete_section clock str_compound w gc ro st
    = skip clock "Delete (tag)" reason
        (skip clock "Delete (post)" reason
           (print (nl +:+ "● Delete permissions" +:+ nl) st)).
Proof.
  intros Hp Ht. unfold delete_section. cbv zeta. rewrite ro_on.
  destruct (negb _).
  - exists "allow_delete=false". run_simpl. rewrite Hp. cbn [truthy].
    run_simpl. rewrite Ht. reflexivity.
  - exists "readonly_mode=true". reflexivity.
Qed.

Lemma checks_readonly st :
  quiet st ->
  quiet (checks clock str_compound w gc ro st)
  /\ forall l,
       In l ["Write (create draft)"; "Publish / Unpublish"; "Write (create tag)";
             "Delete (post)"; "Delete (tag)"] ->
       In l (skipped (checks clock str_compound w gc ro st)).
Proof.
  intros Hq. unfold checks. cbv zeta.
  rewrite write_draft_readonly, update_draft_readonly.
  match goal with |- context [publish_unpublish clock gc ro ?s] =>
    destruct (publish_unpublish_readonly s) as [r1 ->] end.
  rewrite write_tag_readonly.
  set (base := read_tags clock str_compound gc
                 (read_posts clock str_compound gc
                    (print (nl +:+ "● Read permissions" +:+ nl) st))).
  assert (Hbase : quiet base).
  { apply read_tags_quiet, read_posts_quiet.
    eapply quiet_frame; [| | |exact Hq]; reflexivity. }
  match goal with |- context [delete_section clock str_compound w gc ro ?s] =>
    destruct (delete_section_readonly s) as [r2 ->];
      [run_simpl; apply Hbase | run_simpl; apply Hbase |]
  end.
  match goal with |- context [members clock str_compound gc ?s] =>
    destruct (members_quiet gc s) as [Hquiet Hskipped]
  end.
  { eapply quiet_frame; [| | |exact Hbase]; reflexivity. }
  split; [exact Hquiet|].
  intros l Hl. apply Hskipped. run_simpl.
  rewrite !in_app_iff. cbn [In] in *. tauto.
Qed.

End ReadonlyRun.

Lemma readonly_main (w : world) (gc : GhostClient) :
  new_client w = Constructed gc ->
  truthy (ro_of gc) = true ->
  quiet (snd (main clock str_compound w))
  /\ (In "Connect" (passed (snd (main clock str_compound w))) ->
      forall l,
        In l ["Write (create draft)"; "Publish / Unpublish"; "Write (create tag)";
              "Delete (post)"; "Delete (tag)"] ->
        In l (skipped (snd (main clock str_compound w)))).
Proof.
  intros Hclient Hro. unfold ro_of in Hro.
  unfold main. cbv zeta.
  destruct (creds_exist w); cbn [negb].
  - rewrite Hclient. unfold connect. cbv zeta.
    destruct (obind _ _) as [detail|e].
    + match goal with |- context [checks clock str_compound w gc ?r ?s] =>
        destruct (checks_readonly w gc r Hro s) as [Hquiet Hskipped]
      end.
      { split; [|split]; run_simpl; repeat constructor. }
      match goal with |- context [finish clock w ?s] =>
        destruct (finish_frame w s) as (Hn & Hp & Ht & _ & Hs & _);
          cbv zeta in Hn, Hp, Ht, Hs
      end.
      split.
      * eapply quiet_frame; [exact Hn | exact Hp | exact Ht | exact Hquiet].
      * intros _ l Hl. rewrite Hs. apply Hskipped, Hl.
    + cbn [snd].
      match goal with |- context [summary ?s] =>
        destruct (summary_frame s) as [(Sp & _ & _ & _ & Spi & Sti & _) Sn]
      end.
      split.
      * eapply quiet_frame; [exact Sn | exact Spi | exact Sti |].
        split; [|split]; run_simpl; repeat constructor.
      * rewrite Sp. run_simpl. intros [].
  - cbn [snd]. split.
    + split; [|split]; run_simpl; constructor.
    + run_simpl. intros [].
Qed.

(** C9: with [readonly_mode] set in the loaded config the run sends
    nothing that mutates: every event is a read, neither test id is ever
    set, so the cleanup DELETE is not reached; and once the connection
    check has passed, the create, publish, tag and delete checks are on
    the skipped list. *)
Theorem readonly_run_sends_no_mutation (w : world) (gc : GhostClient) :
  new_client w = Constructed gc ->
  cfg_flag (cfg gc) "readonly_mode" false = true ->
  let st := snd (main clock str_compound w) in
  Forall (fun ev => mutating ev = false) (net st)
  /\ test_post_id st = JNull /\ test_tag_id st = JNull
  /\ (In "Connect" (passed st) ->
      forall l,
        In l ["Write (create draft)"; "Publish / Unpublish"; "Write (create tag)";
              "Delete (post)"; "Delete (tag)"] ->
        In l (skipped st)).
Proof.
  intros Hclient Hro.
  destruct (readonly_main w gc Hclient Hro) as [(Hnet & Hp & Ht) Hskipped].
  cbv zeta. tauto.
Qed.

(** *** The cleanup and the results *)

Ltac same_results_tac :=
  unfold same_results in *; run_simpl; intuition congruence.

Lemma same_results_refl st : same_results st st.
Proof. same_results_tac. Qed.



(** A cleanup attempt, whatever becomes of it, leaves the results as they
    were: an exception in it ends in the warning, not in [r.fail]. *)
Lemma maybe_cleanup_same_results (b : bool) c url warning st :
  same_results (if b then cleanup c url warning st else st) st.
Proof.
  destruct b; [|apply same_results_refl].
  pose proof (cleanup_keeps_results c url warning st) as H. cbv zeta in H.
  same_results_tac.
Qed.





(** *** Every event of a run is sanctioned *)

Lemma tracked_frame gc (st st' : state) :
  net st' = net st -> test_post_id st' = test_post_id st ->
  test_tag_id st' = test_tag_id st ->
  tracked str_compound gc st -> tracked str_compound gc st'.
Proof. unfold tracked. intros -> -> ->. tauto. Qed.

Lemma tracked_emit gc (ev : event) (st : state) :
  sanctioned str_compound gc ev ->
  tracked str_compound gc st -> tracked str_compound gc (emit ev st).
Proof.
  unfold tracked. run_simpl. intros Hev (Hnet & Hp & Ht).
  repeat split; try tauto.
  apply Forall_app; split; [assumption | constructor; [exact Hev | constructor]].
Qed.

Lemma check_write_allowed gc :
  truthy (ro_of gc) = false -> check Write (policy_of (cfg gc)) = Allow.
Proof.
  unfold check, policy_of, cfg_flag, ro_of. cbn [readonly_mode].
  intros ->. reflexivity.
Qed.

Lemma check_publish_allowed gc :
  negb (truthy (dict_get (cfg gc) "allow_publish" (JBool true))) = false ->
  truthy (ro_of gc) = false ->
  check Publish (policy_of (cfg gc)) = Allow
  /\ check Unpublish (policy_of (cfg gc)) = Allow.
Proof.
  unfold check, policy_of, cfg_flag, ro_of. cbn [readonly_mode allow_publish].
  intros -> ->. split; reflexivity.
Qed.

Lemma check_delete_allowed gc :
  negb (truthy (dict_get (cfg gc) "allow_delete" (JBool false))) = false ->
  truthy (ro_of gc) = false ->
  check Delete (policy_of (cfg gc)) = Allow.
Proof.
  unfold check, policy_of, cfg_flag, ro_of. cbn [readonly_mode allow_delete].
  intros -> ->. reflexivity.
Qed.

Lemma check_delete_denied gc :
  negb (truthy (dict_get (cfg gc) "allow_delete" (JBool false))) = true ->
  check Delete (policy_of (cfg gc)) = Deny "allow_delete=false".
Proof.
  unfold check, policy_of, cfg_flag. cbn [allow_delete].
  intros ->. reflexivity.
Qed.

Lemma check_member_allowed gc :
  negb (truthy (dict_get (cfg gc) "allow_member_access" (JBool false))) = false ->
  check MemberRead (policy_of (cfg gc)) = Allow.
Proof.
  unfold check, policy_of, cfg_flag. cbn [allow_member_access].
  intros ->. reflexivity.
Qed.

Lemma readonly_off gc :
  truthy (ro_of gc) = false -> readonly_mode (policy_of (cfg gc)) = false.
Proof. unfold policy_of, cfg_flag, ro_of. cbn [readonly_mode]. tauto. Qed.

Section Tracked.

Variables (w : world) (gc : GhostClient).

Lemma read_posts_tracked st :
  tracked str_compound gc st ->
  tracked str_compound gc (read_posts clock str_compound gc st).
Proof.
  intros H. unfold read_posts. cbv zeta.
  destruct (obind _ _);
    (eapply tracked_frame;
     [| | |apply (tracked_emit gc (ClientCall (ListPosts 1 "all" "id,title,status")) st eq_refl H)]);
    reflexivity.
Qed.

Lemma read_tags_tracked st :
  tracked str_compound gc st ->
  tracked str_compound gc (read_tags clock str_compound gc st).
Proof.
  intros H. unfold read_tags. cbv zeta.
  destruct (obind _ _);
    (eapply tracked_frame;
     [| | |apply (tracked_emit gc (ClientCall (ListTags 1)) st eq_refl H)]);
    reflexivity.
Qed.

Lemma write_draft_tracked st :
  tracked str_compound gc st ->
  tracked str_compound gc (write_draft clock str_compound gc (ro_of gc) st).
Proof.
  intros H. unfold write_draft. cbv zeta.
  destruct (truthy (ro_of gc)) eqn:Hro.
  { eapply tracked_frame; [| | |exact H]; reflexivity. }
  pose proof (tracked_emit gc
                (ClientCall (CreatePost TEST_TITLE
                   "<p>Automated skill init check — safe to delete.</p>" "draft"))
                st (check_write_allowed gc Hro) H) as Hemit.
  destruct (create_post gc) as [post|e] eqn:Hcall; cbn [obind].
  - destruct (py_get post "id" JNull) as [id|e] eqn:Hid.
    + destruct Hemit as (Hnet & _ & Htag).
      split; [exact Hnet|]. split; [|exact Htag].
      run_simpl. intros Hset. split; [apply readonly_off, Hro|].
      exists post. rewrite Hid. auto.
    + eapply tracked_frame; [| | |exact Hemit]; reflexivity.
  - eapply tracked_frame; [| | |exact Hemit]; reflexivity.
Qed.

Lemma update_draft_tracked st :
  tracked str_compound gc st ->
  tracked str_compound gc (update_draft clock gc (ro_of gc) st).
Proof.
  intros H. unfold update_draft. cbv zeta.
  destruct (truthy (test_post_id st) && negb (truthy (ro_of gc))) eqn:Hcond;
    [|exact H].
  apply andb_true_iff in Hcond as [_ Hro]. apply negb_true_iff in Hro.
  pose proof (tracked_emit gc
                (ClientCall (UpdatePost (test_post_id st) "init check excerpt"))
                st (check_write_allowed gc Hro) H) as Hemit.
  destruct (update_post gc _);
    (eapply tracked_frame; [| | |exact Hemit]); reflexivity.
Qed.

Lemma publish_unpublish_tracked st :
  tracked str_compound gc st ->
  tracked str_compound gc (publish_unpublish clock gc (ro_of gc) st).
Proof.
  intros H. unfold publish_unpublish. cbv zeta.
  destruct (negb _) eqn:Hpub.
  { eapply tracked_frame; [| | |exact H]; reflexivity. }
  destruct (truthy (ro_of gc)) eqn:Hro.
  { eapply tracked_frame; [| | |exact H]; reflexivity. }
  destruct (check_publish_allowed gc Hpub Hro) as [Hp Hu].
  destruct (truthy (test_post_id st)).
  2: { eapply tracked_frame; [| | |exact H]; reflexivity. }
  pose proof (tracked_emit gc (ClientCall (PublishPost (test_post_id st))) st Hp H)
    as Hone.
  assert (Htwo : tracked str_compound gc
                   (emit (ClientCall (UnpublishPost (test_post_id st)))
                      (emit (ClientCall (PublishPost (test_post_id st))) st)))
    by (apply tracked_emit; assumption).
  destruct (publish_post gc _), (unpublish_post gc _);
    (eapply tracked_frame; [| | |exact Htwo]); reflexivity.
Qed.

Lemma write_tag_tracked st :
  tracked str_compound gc st ->
  tracked str_compound gc (write_tag clock str_compound gc (ro_of gc) st).
Proof.
  intros H. unfold write_tag. cbv zeta.
  destruct (truthy (ro_of gc)) eqn:Hro.
  { eapply tracked_frame; [| | |exact H]; reflexivity. }
  pose proof (tracked_emit gc
                (ClientCall (CreateTag TEST_TAG "skill init test — safe to delete"))
                st (check_write_allowed gc Hro) H) as Hemit.
  destruct (create_tag gc) as [tag|e] eqn:Hcall; cbn [obind].
  - destruct (py_get tag "id" JNull) as [id|e] eqn:Hid.
    + destruct Hemit as (Hnet & Hpost & _).
      split; [exact Hnet|]. split; [exact Hpost|].
      run_simpl. intros Hset. split; [apply readonly_off, Hro|].
      exists tag. rewrite Hid. auto.
    + eapply tracked_frame; [| | |exact Hemit]; reflexivity.
  - eapply tracked_frame; [| | |exact Hemit]; reflexivity.
Qed.

(** The cleanup adds at most its own DELETE. *)
Lemma cleanup_tracked c url warning st :
  (forall headers, sanctioned str_compound gc (HttpDelete url headers)) ->
  tracked str_compound gc st ->
  tracked str_compound gc (cleanup c url warning st).
Proof.
  intros Hurl H. unfold cleanup. cbv zeta.
  destruct (import_requests c).
  2: { eapply tracked_frame; [| | |exact H]; reflexivity. }
  destruct (_make_jwt c) as [token|e].
  2: { eapply tracked_frame; [| | |exact H]; reflexivity. }
  match goal with |- context [emit ?ev st] =>
    pose proof (tracked_emit gc ev st (Hurl _) H) as Hemit end.
  destruct (requests_delete c _ _);
    (eapply tracked_frame; [| | |exact Hemit]); reflexivity.
Qed.

Lemma delete_section_tracked st :
  tracked str_compound gc st ->
  tracked str_compound gc (delete_section clock str_compound w gc (ro_of gc) st).
Proof.
  intros H. unfold delete_section. cbv zeta.
  destruct (negb _) eqn:Hdel.
  - set (skips := skip clock "Delete (tag)" "allow_delete=false" _).
    assert (Hskips : tracked str_compound gc skips)
      by (eapply tracked_frame; [| | |exact H]; reflexivity).
    pose proof (check_delete_denied gc Hdel) as Hdeny.
    assert (Hpost : tracked str_compound gc
              (if truthy (test_post_id skips)
               then cleanup (post_cleanup w)
                      (post_url str_compound gc (test_post_id skips))
                      ("  ⚠  Test post " +:+ py_str str_compound (test_post_id skips)
                         +:+ " could not be cleaned up. Delete manually.") skips
               else skips)).
    { destruct (truthy (test_post_id skips)) eqn:Hset; [|exact Hskips].
      destruct Hskips as (Hnet & Hp & Ht). destruct (Hp Hset) as [Hro Hmade].
      apply cleanup_tracked; [|exact (conj Hnet (conj Hp Ht))].
      intros headers. cbn [sanctioned]. repeat split; try assumption.
      left. eauto. }
    set (after_post := if truthy (test_post_id skips) then _ else skips) in *.
    destruct (truthy (test_tag_id after_post)) eqn:Hset; [|exact Hpost].
    destruct Hpost as (Hnet & Hp & Ht). destruct (Ht Hset) as [Hro Hmade].
    apply cleanup_tracked; [|exact (conj Hnet (conj Hp Ht))].
    intros headers. cbn [sanctioned]. repeat split; try assumption.
    right. eauto.
  - destruct (truthy (ro_of gc)) eqn:Hro.
    { eapply tracked_frame; [| | |exact H]; reflexivity. }
    pose proof (check_delete_allowed gc Hdel Hro) as Hallow.
    set (start := print (nl +:+ "● Delete permissions" +:+ nl) st).
    assert (Hstart : tracked str_compound gc start)
      by (eapply tracked_frame; [| | |exact H]; reflexivity).
    assert (Hpost : tracked str_compound gc
              (if truthy (test_post_id start)
               then match delete_post gc (test_post_id start) with
                    | Returns _ =>
                        ok clock "Delete (post)" EmptyString
                          (set_test_post_id JNull
                             (emit (ClientCall (DeletePost (test_post_id start))) start))
                    | Raises e =>
                        fail clock "Delete (post)" (exn_str e)
                          (emit (ClientCall (DeletePost (test_post_id start))) start)
                    end
               else skip clock "Delete (post)" "no test post to delete" start)).
    { destruct (truthy (test_post_id start)).
      2: { eapply tracked_frame; [| | |exact Hstart]; reflexivity. }
      pose proof (tracked_emit gc (ClientCall (DeletePost (test_post_id start)))
                    start Hallow Hstart) as Hemit.
      destruct (delete_post gc _).
      - destruct Hemit as (Hnet & _ & Ht).
        split; [exact Hnet|]. split; [|exact Ht].
        run_simpl. discriminate.
      - eapply tracked_frame; [| | |exact Hemit]; reflexivity. }
    set (after_post := if truthy (test_post_id start) then _ else _) in *.
    destruct (truthy (test_tag_id after_post)).
    2: { eapply tracked_frame; [| | |exact Hpost]; reflexivity. }
    pose proof (tracked_emit gc (ClientCall (DeleteTag (test_tag_id after_post)))
                  after_post Hallow Hpost) as Hemit.
    destruct (delete_tag gc _).
    + destruct Hemit as (Hnet & Hp & _).
      split; [exact Hnet|]. split; [exact Hp|].
      run_simpl. discriminate.
    + eapply tracked_frame; [| | |exact Hemit]; reflexivity.
Qed.

Lemma members_tracked st :
  tracked str_compound gc st ->
  tracked str_compound gc (members clock str_compound gc st).
Proof.
  intros H. unfold members. cbv zeta.
  destruct (negb _) eqn:Hmem.
  { eapply tracked_frame; [| | |exact H]; reflexivity. }
  pose proof (tracked_emit gc (ClientCall (ListMembers 1))
                (print (nl +:+ "● Optional permissions" +:+ nl) st)
                (check_member_allowed gc Hmem)) as Hemit.
  destruct (obind _ _);
    (eapply tracked_frame; [| | |apply Hemit]);
    try reflexivity;
    (eapply tracked_frame; [| | |exact H]); reflexivity.
Qed.

Lemma checks_tracked st :
  tracked str_compound gc st ->
  tracked str_compound gc (checks clock str_compound w gc (ro_of gc) st).
Proof.
  intros H. unfold checks. cbv zeta.
  apply members_tracked, delete_section_tracked, write_tag_tracked,
    publish_unpublish_tracked, update_draft_tracked, write_draft_tracked.
  eapply tracked_frame; [| | |apply read_tags_tracked, read_posts_tracked].
  1-3: reflexivity.
  eapply tracked_frame; [| | |exact H]; reflexivity.
Qed.

End Tracked.

Lemma connect_tracked gc st :
  tracked str_compound gc st ->
  tracked str_compound gc (snd (connect clock str_compound gc st)).
Proof.
  intros H. unfold connect. cbv zeta.
  assert (Hemit : tracked str_compound gc
                    (emit (ClientCall GetSite)
                       (print (nl +:+ "● Connection" +:+ nl) st))).
  { apply tracked_emit; [reflexivity|].
    eapply tracked_frame; [| | |exact H]; reflexivity. }
  destruct (obind _ _); cbn [snd].
  - eapply tracked_frame; [| | |exact Hemit]; reflexivity.
  - match goal with |- context [summary ?s] =>
      destruct (summary_frame s) as [(_ & _ & _ & _ & Spi & Sti & _) Sn] end.
    eapply tracked_frame; [exact Sn | exact Spi | exact Sti |].
    eapply tracked_frame; [| | |exact Hemit]; reflexivity.
Qed.

(** C1, amended: every call the script makes into the client is of a
    kind the decision allows under the client's config; the only other
    requests are the script's own cleanup DELETEs, sent past the decision
    when it denies deletes with [allow_delete=false], in a run that is
    not read-only, for the test post or test tag this run created.  A
    run that gets no client sends nothing. *)
Theorem run_events_sanctioned (w : world) :
  match new_client w with
  | Constructed gc =>
      Forall (sanctioned str_compound gc) (net (snd (main clock str_compound w)))
  | _ => net (snd (main clock str_compound w)) = []
  end.
Proof.
  unfold main. cbv zeta.
  destruct (creds_exist w); cbn [negb].
  2: { destruct (new_client w); cbn [snd]; run_simpl;
       [constructor | reflexivity | reflexivity]. }
  destruct (new_client w) as [gc|e|e]; [|reflexivity|reflexivity].
  match goal with |- context [connect clock str_compound gc ?s] =>
    assert (Hconn : tracked str_compound gc (snd (connect clock str_compound gc s)))
      by (apply connect_tracked; repeat split; run_simpl;
          try constructor; discriminate);
    destruct (connect clock str_compound gc s) as [[code|] st]
  end; cbn [snd] in *.
  - apply Hconn.
  - match goal with |- context [finish clock w ?s] =>
      destruct (finish_frame w s) as (Hn & _); cbv zeta in Hn; rewrite Hn end.
    apply (checks_tracked w gc st Hconn).
Qed.

End RunFacts.

(** C1, as stated, fails: under the default config the run creates the
    test post and tag and then sends a DELETE for each, though the
    decision denies deletes. *)
Lemma cleanup_delete_bypasses_gate :
  let st := snd (main sample_clock sample_str default_world) in
  In (HttpDelete "https://blog.example/ghost/api/admin/posts/p1"
        [("Authorization", "Ghost token"); ("Accept-Version", "v5.0")]) (net st)
  /\ In (HttpDelete "https://blog.example/ghost/api/admin/tags/t1"
           [("Authorization", "Ghost token"); ("Accept-Version", "v5.0")]) (net st)
  /\ allow_delete (policy_of (cfg default_client)) = false
  /\ check Delete (policy_of (cfg default_client)) = Deny "allow_delete=false"
  /\ ~ gate_respected (cfg default_client) (net st).
Proof.
  cbv zeta.
  assert (Hnet : skipn 8 (net (snd (main sample_clock sample_str default_world)))
                 = [HttpDelete "https://blog.example/ghost/api/admin/posts/p1"
                      [("Authorization", "Ghost token"); ("Accept-Version", "v5.0")];
                    HttpDelete "https://blog.example/ghost/api/admin/tags/t1"
                      [("Authorization", "Ghost token"); ("Accept-Version", "v5.0")]])
    by (vm_compute; reflexivity).
  assert (Hin : forall ev,
             In ev (skipn 8 (net (snd (main sample_clock sample_str default_world)))) ->
             In ev (net (snd (main sample_clock sample_str default_world)))).
  { intros ev Hev.
    rewrite <- (firstn_skipn 8 (net (snd (main sample_clock sample_str default_world)))).
    apply in_or_app. right. exact Hev. }
  split; [apply Hin; rewrite Hnet; left; reflexivity|].
  split; [apply Hin; rewrite Hnet; right; left; reflexivity|].
  split; [reflexivity|]. split; [reflexivity|].
  intros Hgate. unfold gate_respected in Hgate.
  rewrite Forall_forall in Hgate.
  specialize (Hgate (HttpDelete "https://blog.example/ghost/api/admin/posts/p1"
                       [("Authorization", "Ghost token"); ("Accept-Version", "v5.0")])).
  assert (Habs : check Delete (policy_of (cfg default_client)) = Allow).
  { apply Hgate; [|reflexivity]. apply list_elem_of_In, Hin.
    rewrite Hnet. left. reflexivity. }
  discriminate Habs.
Qed.

(** A posts response without [meta]. *)
Lemma missing_total_is_unknown_witness :
  pagination_total (JObj {[ "posts" := JArr [] ]}) = Returns (JStr "?").
Proof.
  apply (missing_total_is_unknown sample_clock sample_str default_client
           (JObj {[ "posts" := JArr [] ]}) initial).
  vm_compute. reflexivity.
Defined.

(** The empty config stands for the four defaults. *)
Lemma absent_key_defaults_witness :
  readonly_mode (policy_of (cfg default_client)) = false
  /\ allow_publish (policy_of (cfg default_client)) = true
  /\ allow_delete (policy_of (cfg default_client)) = false
  /\ allow_member_access (policy_of (cfg default_client)) = false.
Proof.
  destruct (absent_key_defaults sample_clock sample_str default_world default_client)
    as (Hro & Hpub & Hdel & Hmem & _).
  split; [apply Hro; reflexivity|].
  split; [apply Hpub; reflexivity|].
  split; [apply Hdel; reflexivity|].
  apply Hmem; reflexivity.
Defined.

(** The read-only sample run. *)
Lemma readonly_run_sends_no_mutation_witness :
  let st := snd (main sample_clock sample_str readonly_world) in
  Forall (fun ev => mutating ev = false) (net st)
  /\ test_post_id st = JNull /\ test_tag_id st = JNull
  /\ (In "Connect" (passed st) ->
      forall l,
        In l ["Write (create draft)"; "Publish / Unpublish"; "Write (create tag)";
              "Delete (post)"; "Delete (tag)"] ->
        In l (skipped st)).
Proof.
  apply (readonly_run_sends_no_mutation sample_clock sample_str readonly_world
           readonly_client).
  - reflexivity.
  - vm_compute. reflexivity.
Defined.

Example readonly_run_events :
  net (snd (main sample_clock sample_str readonly_world))
  = [ClientCall GetSite; ClientCall (ListPosts 1 "all" "id,title,status");
     ClientCall (ListTags 1)]
  /\ skipped (snd (main sample_clock sample_str readonly_world))
     = ["Write (create draft)"; "Publish / Unpublish"; "Write (create tag)";
        "Delete (post)"; "Delete (tag)"; "Members (list)"]
  /\ fst (main sample_clock sample_str readonly_world) = Exit 0.
Proof. vm_compute. auto. Qed.

(** A failing cleanup shows in the output and nowhere else. *)
Example failing_cleanup_run :
  let run := main sample_clock sample_str
               (with_cleanup default_world failing_cleanup failing_cleanup) in
  fst run = Exit 0 /\ failed (snd run) = []
  /\ In ("  ⚠  Test post p1 could not be cleaned up. Delete manually." +:+ nl)
        (out (snd run)).
Proof.
  cbv zeta. split; [vm_compute; reflexivity|]. split; [vm_compute; reflexivity|].
  assert (H : nth_error (out (snd (main sample_clock sample_str
                (with_cleanup default_world failing_cleanup failing_cleanup)))) 17
              = Some ("  ⚠  Test post p1 could not be cleaned up. Delete manually." +:+ nl))
    by (vm_compute; reflexivity).
  eapply nth_error_In, H.
Qed.

(** ** The client core *)

Section CoreFacts.

Variable F : conventions.
Variable S : service.

(** *** Token *)

(** C4: whenever the secret decodes, [mint] produces a token; its
    payload is issued at the given time and expires 300 seconds later
    exactly; and identical credentials and timestamp give the identical
    token, byte for byte on the wire. *)
Theorem mint_deterministic_expiry (c : Credentials) (now : Z) (key : list Byte.byte) :
  unhex (secret c) = Some key ->
  exists t,
    mint F c now = Ok t
    /\ issued_at (payload t) = now
    /\ expires_at (payload t) = issued_at (payload t) + 300
    /\ forall c' now',
         key_id c' = key_id c -> secret c' = secret c -> now' = now ->
         mint F c' now' = Ok t
         /\ forall t', mint F c' now' = Ok t' -> token_text F t' = token_text F t.
Proof.
  intros Hkey. unfold mint. rewrite Hkey.
  eexists. split; [reflexivity|].
  cbn [payload issued_at expires_at].
  split; [reflexivity|]. split; [reflexivity|].
  intros c' now' Hid Hsecret ->. rewrite Hsecret, Hkey, Hid.
  split; [reflexivity|].
  intros t' Ht'. inversion Ht'. reflexivity.
Qed.

(** A secret that is not hex is refused before anything is built. *)
Lemma mint_invalid_secret (c : Credentials) (now : Z) :
  unhex (secret c) = None -> mint F c now = Failed InvalidCredentialsError.
Proof. intros H. unfold mint. rewrite H. reflexivity. Qed.

(** *** Request executor *)

Lemma interpret_not_denied (r : reply) (reason : string) :
  interpret F r <> Failed (PermissionDeniedError reason).
Proof.
  destruct r as [status text|]; cbn [interpret]; [|discriminate].
  destruct ((200 <=? status) && (status <? 300)).
  - destruct (loads F text); discriminate.
  - destruct ((status =? 401) || (status =? 403)); [discriminate|].
    destruct (status =? 404); discriminate.
Qed.

Lemma interpret_rejected (status : Z) (text : string) :
  status = 401 \/ status = 403 ->
  interpret F (Response status text) = Failed AuthenticationError.
Proof. intros [-> | ->]; reflexivity. Qed.

(** The executor alone never reports a policy denial. *)
Lemma execute_not_denied c now method path body (s : remote S) reason :
  fst (fst (execute F S c now method path body s))
  <> Failed (PermissionDeniedError reason).
Proof.
  unfold execute. destruct (mint F c now) as [t|e] eqn:Hmint.
  - destruct (send S s _) as [r s']. cbn [fst]. apply interpret_not_denied.
  - cbn [fst]. unfold mint in Hmint.
    destruct (unhex (secret c)); inversion Hmint. discriminate.
Qed.

(** C5: a reply with status 401 or 403 makes the executor fail with
    [AuthenticationError], having sent the one signed request, and never
    with [PermissionDeniedError]. *)
Theorem remote_rejection_is_authentication_error
    (c : Credentials) (now : Z) (t : AuthToken)
    (method : string) (path : list string) (body : option json)
    (s s' : remote S) (status : Z) (text : string) :
  mint F c now = Ok t ->
  send S s (signed_request F t method path body) = (Response status text, s') ->
  status = 401 \/ status = 403 ->
  execute F S c now method path body s
  = (Failed AuthenticationError, [signed_request F t method path body], s')
  /\ forall reason,
       fst (fst (execute F S c now method path body s))
       <> Failed (PermissionDeniedError reason).
Proof.
  intros Hmint Hsend Hstatus. split.
  - unfold execute. rewrite Hmint, Hsend.
    rewrite (interpret_rejected status text Hstatus). reflexivity.
  - intros reason. apply execute_not_denied.
Qed.

(** *** Resource operations *)

Lemma operation_denied kind policy c now method path body (s : remote S) reason :
  spec_check kind policy = Deny reason ->
  operation F S kind policy c now method path body s
  = (Failed (PermissionDeniedError reason), [], s).
Proof. intros H. unfold operation. rewrite H. reflexivity. Qed.

(** C3: without [allow_delete], [deletePost] fails with
    [PermissionDeniedError], sends no request and leaves the service as
    it was; the reason is [allow_delete=false] when [readonly_mode] is
    off, and [readonly_mode] when it is on, the first rule of section 4.2
    coming first. *)
Theorem deletePost_denied (policy : PolicyConfig) (c : Credentials) (now : Z)
    (id : string) (s : remote S) :
  allow_delete policy = false ->
  deletePost F S policy c now id s
  = (Failed (PermissionDeniedError
               (if readonly_mode policy then "readonly_mode"
                else "allow_delete=false")), [], s).
Proof.
  intros H. unfold deletePost. apply operation_denied.
  apply (proj2 (delete_reason_by_table policy H)).
Qed.

(** What a successful call went through: the gate allowed it, a token
    was minted, and the service answered the signed request with a 2xx
    status. *)
Lemma execute_ok c now method path body (s s' : remote S) v sent :
  execute F S c now method path body s = (Ok v, sent, s') ->
  exists t status text,
    mint F c now = Ok t
    /\ send S s (signed_request F t method path body) = (Response status text, s')
    /\ 200 <= status < 300.
Proof.
  unfold execute. destruct (mint F c now) as [t|e]; [|discriminate].
  destruct (send S s _) as [r s1] eqn:Hsend. intros H. inversion H; subst.
  destruct r as [status text|]; [|discriminate].
  exists t, status, text. split; [reflexivity|]. split; [exact Hsend|].
  cbn [interpret] in *.
  destruct ((200 <=? status) && (status <? 300)) eqn:Hrange.
  - apply andb_true_iff in Hrange as [Hlo Hhi]. lia.
  - destruct ((status =? 401) || (status =? 403)); [discriminate|].
    destruct (status =? 404); discriminate.
Qed.

Lemma conflict_aware_ok r v : conflict_aware F r = Ok v -> r = Ok v.
Proof.
  destruct r as [v'|e]; [tauto|]. cbn [conflict_aware].
  destruct e; try discriminate.
  destruct (reports_stale F _ _); discriminate.
Qed.

Lemma partial_update_ok kind policy c now id patch (s s' : remote S) v sent :
  partial_update F S kind policy c now id patch s = (Ok v, sent, s') ->
  spec_check kind policy = Allow
  /\ exists t status text,
       send S s (signed_request F t "PUT" ["posts"; id] (Some (JObj patch)))
       = (Response status text, s')
       /\ 200 <= status < 300.
Proof.
  unfold partial_update, operation.
  destruct (spec_check kind policy) as [|reason]; [|discriminate].
  destruct (execute F S c now "PUT" ["posts"; id] (Some (JObj patch)) s)
    as [[r sent1] s1] eqn:Hexec.
  intros H. inversion H; subst.
  match goal with Hc : conflict_aware F r = Ok v |- _ =>
    apply conflict_aware_ok in Hc; subst r end.
  destruct (execute_ok _ _ _ _ _ _ _ _ _ Hexec) as (t & status & text & _ & Hsend & Hrange).
  split; [reflexivity|]. eauto.
Qed.

(** *** Publish and unpublish *)

Section RoundTrip.

(** What the service holds under an id, and the contract of section
    4.4: a PUT that is answered with success has applied the patch to
    the resource and kept its other fields. *)
Variable resource : remote S -> string -> option ApiResource.

Hypothesis partial_update_contract :
  forall (s s' : remote S) (req : request) status text id patch,
    send S s req = (Response status text, s') ->
    method req = "PUT" -> path req = ["posts"; id] ->
    body req = Some (JObj patch) ->
    200 <= status < 300 ->
    resource s' id = apply_patch patch <$> resource s id.

Lemma partial_update_applied kind policy c now id patch (s s' : remote S) v sent :
  partial_update F S kind policy c now id patch s = (Ok v, sent, s') ->
  resource s' id = apply_patch patch <$> resource s id.
Proof.
  intros H.
  destruct (partial_update_ok _ _ _ _ _ _ _ _ _ _ H)
    as (_ & t & status & text & Hsend & Hrange).
  eapply partial_update_contract; [exact Hsend | | | | exact Hrange]; reflexivity.
Qed.

(** C7: when [publishPost] and then [unpublishPost] succeed on a
    resource, it is a draft again, and every field other than the status
    is what it was. *)
Theorem publish_unpublish_round_trip
    (policy : PolicyConfig) (c : Credentials) (now1 now2 : Z) (id : string)
    (r : ApiResource) (s s1 s2 : remote S) (v1 v2 : json)
    (sent1 sent2 : list request) :
  resource s id = Some r ->
  publishPost F S policy c now1 id s = (Ok v1, sent1, s1) ->
  unpublishPost F S policy c now2 id s1 = (Ok v2, sent2, s2) ->
  exists r',
    resource s2 id = Some r'
    /\ fields r' !! "status" = Some (JStr "draft")
    /\ resource_id r' = resource_id r
    /\ forall k, k <> "status" -> fields r' !! k = fields r !! k.
Proof.
  intros Hr Hpub Hunpub.
  apply partial_update_applied in Hpub. apply partial_update_applied in Hunpub.
  rewrite Hr in Hpub. cbn [fmap option_fmap option_map] in Hpub.
  rewrite Hpub in Hunpub. cbn [fmap option_fmap option_map] in Hunpub.
  eexists. split; [exact Hunpub|].
  unfold apply_patch, status_patch. cbn [fields resource_id].
  split; [|split; [reflexivity|]].
  - apply lookup_union_Some_l. apply lookup_singleton_eq.
  - intros k Hk.
    rewrite !lookup_union_r by (apply lookup_singleton_ne; congruence).
    reflexivity.
Qed.

(** In between the resource is published, with the same other fields. *)
Lemma publish_sets_published
    (policy : PolicyConfig) (c : Credentials) (now : Z) (id : string)
    (r : ApiResource) (s s1 : remote S) (v : json) (sent : list request) :
  resource s id = Some r ->
  publishPost F S policy c now id s = (Ok v, sent, s1) ->
  resource s1 id = Some (apply_patch (status_patch "published") r).
Proof.
  intros Hr Hpub. apply partial_update_applied in Hpub.
  rewrite Hr in Hpub. exact Hpub.
Qed.

End RoundTrip.

End CoreFacts.

(** *** The core at work *)

Example b64url_encode_vectors :
  b64url_encode (list_byte_of_string "Man") = "TWFu"
  /\ b64url_encode (list_byte_of_string "Ma") = "TWE"
  /\ b64url_encode (list_byte_of_string "M") = "TQ"
  /\ b64url_encode [xfb; xff; xfe] = "-__-".
Proof. vm_compute. auto. Qed.

Example unhex_vectors :
  unhex "00fF1a" = Some [x00; xff; x1a] /\ unhex "0" = None /\ unhex "zz" = None.
Proof. vm_compute. auto. Qed.

Example sample_token_header_segment :
  exists t, mint sample_conventions sample_credentials 1700000000 = Ok t
            /\ substring 0 36 (token_text sample_conventions t)
               = "eyJhbGciOiJIUzI1NiIsInR5cCI6IkpXVCIs".
Proof. eexists. split; [reflexivity|]. vm_compute. reflexivity. Qed.

(** A token minted at 1700000000 expires at 1700000300. *)
Lemma mint_deterministic_expiry_witness :
  exists t, mint sample_conventions sample_credentials 1700000000 = Ok t
            /\ expires_at (payload t) = 1700000300.
Proof.
  destruct (mint_deterministic_expiry sample_conventions sample_credentials
              1700000000 [x00; xff; x10; xa7])
    as (t & Hmint & Hissued & Hexpires & _).
  - vm_compute. reflexivity.
  - exists t. split; [exact Hmint|]. rewrite Hexpires, Hissued. reflexivity.
Defined.

(** A 403 from the service. *)
Lemma remote_rejection_is_authentication_error_witness :
  fst (fst (execute sample_conventions rejecting sample_credentials 1700000000
              "GET" ["site"] None tt))
  = Failed AuthenticationError.
Proof.
  destruct (mint sample_conventions sample_credentials 1700000000) as [t|e] eqn:Hmint.
  - destruct (remote_rejection_is_authentication_error sample_conventions rejecting
                sample_credentials 1700000000 t "GET" ["site"] None tt tt 403 "{}")
      as [H _].
    + exact Hmint.
    + reflexivity.
    + right. reflexivity.
    + rewrite H. reflexivity.
  - vm_compute in Hmint. discriminate Hmint.
Defined.

(** The scenario of section 8: [allow_delete=false], [deletePost("abc123")]. *)
Lemma deletePost_denied_witness :
  deletePost sample_conventions blog open_policy sample_credentials 1700000000
    "abc123" sample_posts
  = (Failed (PermissionDeniedError "allow_delete=false"), [], sample_posts).
Proof.
  apply (deletePost_denied sample_conventions blog open_policy sample_credentials
           1700000000 "abc123" sample_posts).
  reflexivity.
Defined.

(** C3, as stated, fails: under a read-only policy without
    [allow_delete] the denial names [readonly_mode], the first rule of
    section 4.2, not [allow_delete=false]; no request is sent either
    way. *)
Lemma deletePost_readonly_reason :
  let policy := {| readonly_mode := true; allow_publish := true;
                   allow_delete := false; allow_member_access := false |} in
  allow_delete policy = false
  /\ spec_check Delete policy = Deny "readonly_mode"
  /\ deletePost sample_conventions blog policy sample_credentials 1700000000
       "abc123" sample_posts
     = (Failed (PermissionDeniedError "readonly_mode"), [], sample_posts)
  /\ PermissionDeniedError "readonly_mode"
     <> PermissionDeniedError "allow_delete=false".
Proof. cbv zeta. repeat split. discriminate. Qed.

(** Where deletes are allowed the request goes out and the post is gone. *)
Example deletePost_allowed :
  let '(r, sent, posts) :=
    deletePost sample_conventions blog deleting_policy sample_credentials
      1700000000 "abc123" sample_posts in
  map method sent = ["DELETE"] /\ map path sent = [["posts"; "abc123"]]
  /\ posts !! "abc123" = None.
Proof. vm_compute. auto. Qed.

Lemma serve_partial_update
    (s s' : gmap string ApiResource) (req : request) status text id patch :
  serve s req = (Response status text, s') ->
  method req = "PUT" -> path req = ["posts"; id] ->
  body req = Some (JObj patch) ->
  200 <= status < 300 ->
  s' !! id = apply_patch patch <$> s !! id.
Proof.
  unfold serve. intros Hserve Hmethod Hpath Hbody Hrange.
  rewrite Hpath, Hmethod, Hbody in Hserve.
  change (String.eqb "posts" "posts") with true in Hserve.
  change (String.eqb "PUT" "PUT") with true in Hserve.
  cbn [negb] in Hserve.
  destruct (s !! id) as [r|] eqn:Hr.
  - inversion Hserve; subst. rewrite lookup_insert_eq. reflexivity.
  - inversion Hserve; subst. lia.
Qed.

(** The round trip on the sample post. *)
Lemma publish_unpublish_round_trip_witness :
  exists r',
    snd (unpublishPost sample_conventions blog open_policy sample_credentials
           1700000060 "abc123"
           (snd (publishPost sample_conventions blog open_policy sample_credentials
                   1700000000 "abc123" sample_posts))) !! "abc123" = Some r'
    /\ fields r' !! "status" = Some (JStr "draft")
    /\ resource_id r' = resource_id sample_post
    /\ forall k, k <> "status" -> fields r' !! k = fields sample_post !! k.
Proof.
  eapply (publish_unpublish_round_trip sample_conventions blog
            (fun posts id => posts !! id) serve_partial_update
            open_policy sample_credentials 1700000000 1700000060 "abc123"
            sample_post sample_posts
            (snd (publishPost sample_conventions blog open_policy sample_credentials
                    1700000000 "abc123" sample_posts))
            (snd (unpublishPost sample_conventions blog open_policy sample_credentials
                    1700000060 "abc123"
                    (snd (publishPost sample_conventions blog open_policy
                            sample_credentials 1700000000 "abc123" sample_posts))))).
  - vm_compute. reflexivity.
  - vm_compute. reflexivity.
  - vm_compute. reflexivity.
Defined.

Example published_in_between :
  fields <$> (snd (publishPost sample_conventions blog open_policy sample_credentials
                     1700000000 "abc123" sample_posts) !! "abc123")
  = Some {[ "title" := JStr "Hello"; "status" := JStr "published";
            "html" := JStr "<p>hi</p>" ]}.
Proof. vm_compute. reflexivity. Qed.

(** * More on the run *)

(** ** Runs as sequences of steps *)

Ltac reach :=
  repeat first
    [ apply reaches_here
    | eapply reaches_step;
      [| first [ apply step_ok | apply step_fail | apply step_skip
               | apply step_emit | apply step_set_test_post_id
               | apply step_set_test_tag_id | apply step_print
               | apply step_print_noend ] ] ].

Section RunSteps.

Variable clock : nat -> string.
Variable str_compound : json -> string.

Lemma reaches_trans st1 st2 st3 :
  reaches clock st1 st2 -> reaches clock st2 st3 -> reaches clock st1 st3.
Proof.
  intros H12 H23. induction H23 as [|st2 st3 st4 _ IH Hstep]; [exact H12|].
  eapply reaches_step; [apply IH, H12 | exact Hstep].
Qed.

Lemma print_all_reaches (l : list string) st :
  reaches clock st (fold_left (fun st f => print ("    ✗  " +:+ f) st) l st).
Proof.
  revert st. induction l as [|f l IH]; intros st; cbn [fold_left]; [reach|].
  eapply reaches_trans; [|apply IH]. reach.
Qed.

Lemma summary_reaches st : reaches clock st (summary st).
Proof.
  unfold summary. cbv zeta.
  destruct (0 <? length (skipped st))%nat;
    (destruct (failed _); [reach|]);
    (eapply reaches_trans; [|apply print_all_reaches]); reach.
Qed.

Lemma connect_reaches gc st :
  reaches clock st (snd (connect clock str_compound gc st)).
Proof.
  unfold connect. cbv zeta. destruct (obind _ _); cbn [snd]; [reach|].
  eapply reaches_trans; [|apply summary_reaches]. reach.
Qed.

Lemma read_posts_reaches gc st :
  reaches clock st (read_posts clock str_compound gc st).
Proof. unfold read_posts. cbv zeta. destruct (obind _ _); reach. Qed.

Lemma read_tags_reaches gc st :
  reaches clock st (read_tags clock str_compound gc st).
Proof. unfold read_tags. cbv zeta. destruct (obind _ _); reach. Qed.

Lemma write_draft_reaches gc ro st :
  reaches clock st (write_draft clock str_compound gc ro st).
Proof.
  unfold write_draft. cbv zeta.
  destruct (truthy ro); [reach|]. destruct (obind _ _); reach.
Qed.

Lemma update_draft_reaches gc ro st :
  reaches clock st (update_draft clock gc ro st).
Proof.
  unfold update_draft. cbv zeta.
  destruct (_ && _); [|reach]. destruct (update_post gc _); reach.
Qed.

Lemma publish_unpublish_reaches gc ro st :
  reaches clock st (publish_unpublish clock gc ro st).
Proof.
  unfold publish_unpublish. cbv zeta.
  destruct (negb _); [reach|]. destruct (truthy ro); [reach|].
  destruct (truthy (test_post_id st)); [|reach].
  destruct (publish_post gc _), (unpublish_post gc _); reach.
Qed.

Lemma write_tag_reaches gc ro st :
  reaches clock st (write_tag clock str_compound gc ro st).
Proof.
  unfold write_tag. cbv zeta.
  destruct (truthy ro); [reach|]. destruct (obind _ _); reach.
Qed.

Lemma cleanup_reaches c url warning st :
  reaches clock st (cleanup c url warning st).
Proof.
  unfold cleanup. cbv zeta.
  destruct (import_requests c); [|reach].
  destruct (_make_jwt c); [|reach].
  destruct (requests_delete c _ _); reach.
Qed.

Lemma maybe_cleanup_reaches (b : bool) c url warning st :
  reaches clock st (if b then cleanup c url warning st else st).
Proof. destruct b; [apply cleanup_reaches | reach]. Qed.

Lemma delete_section_reaches w gc ro st :
  reaches clock st (delete_section clock str_compound w gc ro st).
Proof.
  unfold delete_section. cbv zeta.
  destruct (negb _).
  - eapply reaches_trans; [|apply maybe_cleanup_reaches].
    eapply reaches_trans; [|apply maybe_cleanup_reaches]. reach.
  - destruct (truthy ro); [reach|].
    set (start := print _ st).
    assert (Hstart : reaches clock st start) by (subst start; reach).
    set (after_post := if truthy (test_post_id start) then _ else _).
    assert (Hpost : reaches clock st after_post).
    { subst after_post. destruct (truthy (test_post_id start)).
      - destruct (delete_post gc _);
          (eapply reaches_trans; [exact Hstart|]); reach.
      - eapply reaches_trans; [exact Hstart|]. reach. }
    destruct (truthy (test_tag_id after_post)).
    + destruct (delete_tag gc _);
        (eapply reaches_trans; [exact Hpost|]); reach.
    + eapply reaches_trans; [exact Hpost|]. reach.
Qed.

Lemma members_reaches gc st :
  reaches clock st (members clock str_compound gc st).
Proof.
  unfold members. cbv zeta.
  destruct (negb _); [reach|]. destruct (obind _ _); reach.
Qed.

Lemma checks_reaches w gc ro st :
  reaches clock st (checks clock str_compound w gc ro st).
Proof.
  unfold checks. cbv zeta.
  eapply reaches_trans; [|apply members_reaches].
  eapply reaches_trans; [|apply delete_section_reaches].
  eapply reaches_trans; [|apply write_tag_reaches].
  eapply reaches_trans; [|apply publish_unpublish_reaches].
  eapply reaches_trans; [|apply update_draft_reaches].
  eapply reaches_trans; [|apply write_draft_reaches].
  eapply reaches_step; [|apply step_print].
  eapply reaches_trans; [|apply read_tags_reaches].
  eapply reaches_trans; [|apply read_posts_reaches].
  reach.
Qed.

(** What every step keeps and [write_log] keeps, every run ends with. *)
Lemma main_invariant (P : state -> Prop) :
  P initial ->
  (forall st st', step clock st st' -> P st -> P st') ->
  (forall file err st, P st -> P (write_log clock file err st)) ->
  forall w, P (snd (main clock str_compound w)).
Proof.
  intros Hinit Hstep Hlog w.
  assert (Hreach : forall st st', reaches clock st st' -> P st -> P st').
  { intros st st' H. induction H; eauto. }
  unfold main. cbv zeta.
  destruct (creds_exist w); cbn [negb snd].
  2: { eapply Hreach; [|exact Hinit]. reach. }
  assert (Hbanner : P (print "└─────────────────────────────────────────┘"
                         (print "│   Ghost Skill — Init Check              │"
                            (print "┌─────────────────────────────────────────┐"
                               initial))))
    by (eapply Hreach; [|exact Hinit]; reach).
  destruct (new_client w) as [gc|e|e]; cbn [snd].
  2: { eapply Hreach; [|exact Hbanner]. reach. }
  2: exact Hbanner.
  match goal with |- context [connect clock str_compound gc ?s] =>
    pose proof (Hreach _ _ (connect_reaches gc s) Hbanner) as Hconn;
    destruct (connect clock str_compound gc s) as [[code|] st]
  end; cbn [snd] in *; [exact Hconn|].
  unfold finish. cbv zeta.
  match goal with |- context [write_log clock ?f ?e ?s] =>
    assert (Hlogged : P (write_log clock f e s))
  end.
  { apply Hlog. eapply Hreach; [apply summary_reaches|].
    eapply Hreach; [|eapply Hreach; [apply checks_reaches | exact Hconn]].
    reach. }
  destruct (failed (write_log _ _ _ _)); cbn [snd];
    (eapply Hreach; [|exact Hlogged]); reach.
Qed.

End RunSteps.

(** ** The bookkeeping of Results *)

Section RunResults.

Variable clock : nat -> string.
Variable str_compound : json -> string.

Lemma labels_of_snoc status es ts st label detail :
  labels_of status (es ++ [Entry ts st label detail])
  = labels_of status es ++ (if String.eqb st status then [label] else []).
Proof.
  unfold labels_of. rewrite filter_app, map_app. f_equal.
  rewrite filter_cons, filter_nil. cbn [entry_status].
  destruct (String.eqb st status); cbn [Is_true];
    destruct (decide _) as [H|H]; try reflexivity; try (exfalso; tauto).
Qed.

Lemma record_consistent status label detail (st : state) (lists : state -> state) :
  In status ["pass"; "fail"; "skip"] ->
  entries (lists st) = entries st ->
  passed (lists st)
  = passed st ++ (if String.eqb status "pass" then [label] else []) ->
  failed (lists st)
  = failed st ++ (if String.eqb status "fail" then [label] else []) ->
  skipped (lists st)
  = skipped st ++ (if String.eqb status "skip" then [label] else []) ->
  consistent clock st ->
  consistent clock (_record clock status label detail (lists st)).
Proof.
  intros Hstatus He Hp Hf Hs (Cp & Cf & Cs & Cts & Call).
  unfold consistent, _record. cbn [entries passed failed skipped].
  rewrite He, Hp, Hf, Hs, !labels_of_snoc, Cp, Cf, Cs.
  repeat split.
  - rewrite map_app, length_app, Nat.add_1_r, seq_S, map_app, Cts. reflexivity.
  - apply Forall_app. split; [exact Call|].
    constructor; [exact Hstatus | constructor].
Qed.

Lemma step_consistent st st' :
  step clock st st' -> consistent clock st -> consistent clock st'.
Proof.
  intros Hstep H. destruct Hstep; try exact H.
  - change (consistent clock
              (_record clock "pass" label detail (push_passed label st))).
    apply (record_consistent "pass" label detail st (push_passed label));
      [cbn; tauto | .. | exact H]; cbn; rewrite ?app_nil_r; reflexivity.
  - change (consistent clock
              (_record clock "fail" label reason (push_failed label st))).
    apply (record_consistent "fail" label reason st (push_failed label));
      [cbn; tauto | .. | exact H]; cbn; rewrite ?app_nil_r; reflexivity.
  - change (consistent clock
              (_record clock "skip" label reason (push_skipped label st))).
    apply (record_consistent "skip" label reason st (push_skipped label));
      [cbn; tauto | .. | exact H]; cbn; rewrite ?app_nil_r; reflexivity.
Qed.

Lemma count_by_status (es : list entry) :
  Forall (fun e => In (entry_status e) ["pass"; "fail"; "skip"]) es ->
  length es
  = (length (labels_of "pass" es) + length (labels_of "fail" es)
     + length (labels_of "skip" es))%nat.
Proof.
  induction 1 as [|e es He _ IH]; [reflexivity|].
  unfold labels_of in *. rewrite !filter_cons.
  destruct e as [ts status label detail]. cbn [entry_status In] in *.
  destruct He as [<- | [<- | [<- | []]]]; cbn;
    repeat (destruct (decide _) as [?|?]; try (exfalso; tauto));
    cbn [map length]; lia.
Qed.

(** X1: at the end of every run the lists of [Results] agree with its
    entries: the entries of status pass, fail and skip are, in order, the
    passed, failed and skipped labels; every entry has one of the three
    statuses; the entries carry the successive readings of the clock; and
    so the three counts add up to the number of entries. *)
Theorem results_consistent (w : world) :
  let st := snd (main clock str_compound w) in
  consistent clock st
  /\ length (entries st)
     = (length (passed st) + length (failed st) + length (skipped st))%nat.
Proof.
  cbv zeta.
  assert (H : consistent clock (snd (main clock str_compound w))).
  { apply main_invariant.
    - unfold consistent. cbn. repeat split; constructor.
    - apply step_consistent.
    - intros file err st Hst. unfold write_log.
      destruct err; exact Hst. }
  split; [exact H|].
  destruct H as (Hp & Hf & Hs & _ & Hall).
  rewrite (count_by_status _ Hall), Hp, Hf, Hs. reflexivity.
Qed.

End RunResults.

(** ** How a run ends *)

Section RunEnds.

Variable clock : nat -> string.
Variable str_compound : json -> string.

Lemma step_log_lines st st' : step clock st st' -> log_lines st' = log_lines st.
Proof. destruct 1; reflexivity. Qed.

Lemma reaches_log_lines st st' : reaches clock st st' -> log_lines st' = log_lines st.
Proof.
  induction 1 as [|st st' st'' _ IH Hstep]; [reflexivity|].
  rewrite (step_log_lines _ _ Hstep). exact IH.
Qed.

Lemma connect_passes gc st :
  connected gc = true ->
  exists detail,
    connect clock str_compound gc st
    = (None, ok clock "Connect" detail
               (emit (ClientCall GetSite)
                  (print (nl +:+ "● Connection" +:+ nl) st))).
Proof.
  unfold connected, connect. cbv zeta.
  destruct (get_site gc) as [[| | | | |d]|e]; try discriminate.
  intros _. cbn [obind py_get]. eexists. reflexivity.
Qed.

Lemma connect_fails gc st :
  connected gc = false ->
  exists reason,
    connect clock str_compound gc st
    = (Some (Exit 1),
       summary
         (print (nl +:+ "  Cannot proceed without a valid connection. Check credentials.")
            (fail clock "Connect" reason
               (emit (ClientCall GetSite)
                  (print (nl +:+ "● Connection" +:+ nl) st))))).
Proof.
  unfold connected, connect. cbv zeta.
  destruct (get_site gc) as [[| | | | |d]|e]; try discriminate;
    intros _; cbn [obind py_get]; eexists; reflexivity.
Qed.

Lemma finish_exit w st :
  fst (finish clock w st)
  = match failed st with [] => Exit 0 | _ :: _ => Exit 1 end.
Proof.
  unfold finish. cbv zeta.
  match goal with |- context [write_log clock ?f ?e (summary ?s)] =>
    destruct (write_log_frame clock f e (summary s)) as (_ & Hf & _);
    destruct (summary_frame s) as [(_ & Sf & _) _];
    cbv zeta in Hf;
    set (logged := write_log clock f e (summary s)) in *
  end.
  run_simpl.
  assert (H : failed logged = failed st) by congruence.
  rewrite <- H. destruct (failed logged); reflexivity.
Qed.

Lemma finish_lists w st :
  let st' := snd (finish clock w st) in
  passed st' = passed st /\ failed st' = failed st /\ skipped st' = skipped st
  /\ entries st' = entries st /\ net st' = net st.
Proof.
  destruct (finish_frame clock w st) as (Hn & _ & _ & Hp & Hs & Hf).
  cbv zeta in *. repeat split; try assumption.
  unfold finish. cbv zeta.
  match goal with |- context [write_log clock ?f ?e (summary ?s)] =>
    destruct (write_log_frame clock f e (summary s)) as (_ & _ & _ & He & _);
    destruct (summary_frame s) as [(_ & _ & _ & Se & _) _];
    cbv zeta in He
  end.
  destruct (failed (write_log _ _ _ _)); cbn [snd]; run_simpl; congruence.
Qed.

Lemma finish_log w st :
  log_lines (snd (finish clock w st))
  = match log_error w with
    | None =>
        log_lines st
        ++ [RunEntry (clock (length (entries st))) "ghost" (length (passed st))
              (length (failed st)) (length (skipped st)) (entries st)]
    | Some _ => log_lines st
    end.
Proof.
  unfold finish. cbv zeta.
  match goal with |- context [write_log clock ?f ?e (summary ?s)] =>
    destruct (summary_frame s) as [(Sp & Sf & Ss & Se & _ & _ & Sl) _];
    set (summed := summary s) in *
  end.
  run_simpl.
  assert (Hlog : log_lines (write_log clock (log_file w) (log_error w) summed)
                 = match log_error w with
                   | None =>
                       log_lines st
                       ++ [RunEntry (clock (length (entries st))) "ghost"
                             (length (passed st)) (length (failed st))
                             (length (skipped st)) (entries st)]
                   | Some _ => log_lines st
                   end).
  { unfold write_log. destruct (log_error w); run_simpl; congruence. }
  destruct (failed (write_log _ _ _ _)); cbn [snd]; run_simpl; exact Hlog.
Qed.

(** The state in which a completing run enters the checks. *)
Lemma main_completes w gc :
  creds_exist w = true -> new_client w = Constructed gc -> connected gc = true ->
  exists st0,
    main clock str_compound w
    = finish clock w (checks clock str_compound w gc (ro_of gc) st0)
    /\ net st0 = [ClientCall GetSite] /\ test_post_id st0 = JNull
    /\ test_tag_id st0 = JNull /\ log_lines st0 = []
    /\ passed st0 = ["Connect"] /\ failed st0 = [] /\ skipped st0 = [].
Proof.
  intros Hcreds Hclient Hconn. unfold main. cbv zeta.
  rewrite Hcreds, Hclient. cbn [negb].
  match goal with |- context [connect clock str_compound gc ?s] =>
    destruct (connect_passes gc s Hconn) as [detail ->] end.
  eexists. split; [reflexivity|]. run_simpl. repeat split.
Qed.

Lemma completes_cases w :
  completes w = true ->
  exists gc, creds_exist w = true /\ new_client w = Constructed gc
             /\ connected gc = true.
Proof.
  unfold completes. destruct (creds_exist w); [|discriminate].
  destruct (new_client w) as [gc|e|e]; try discriminate.
  cbn [andb]. eauto.
Qed.

(** A run that does not complete. *)
Lemma main_stops w :
  completes w = false ->
  let st := snd (main clock str_compound w) in
  fst (main clock str_compound w)
  = (if creds_exist w
     then match new_client w with RaisesOther e => Uncaught e | _ => Exit 1 end
     else Exit 1)
  /\ passed st = [] /\ skipped st = [] /\ log_lines st = []
  /\ (net st = [] \/ net st = [ClientCall GetSite])
  /\ (failed st = [] \/ failed st = ["Connect"]).
Proof.
  unfold completes, main. cbv zeta.
  destruct (creds_exist w); cbn [negb andb];
    [|intros _; cbn [fst snd]; run_simpl; auto 10].
  destruct (new_client w) as [gc|e|e];
    [|intros _; cbn [fst snd]; run_simpl; auto 10 ..].
  intros Hconn.
  match goal with |- context [connect clock str_compound gc ?s] =>
    destruct (connect_fails gc s Hconn) as [reason ->] end.
  cbn [fst snd].
  match goal with |- context [summary ?s] =>
    destruct (summary_frame s) as [(Sp & Sf & Ss & _ & _ & _ & Sl) Sn] end.
  rewrite Sp, Sf, Ss, Sl, Sn. run_simpl. auto 10.
Qed.


(** X3: the line appended to the log.  A run that completes and can
    write the log leaves exactly one line, which carries the final counts
    of passed, failed and skipped checks and all entries; any other run
    leaves none. *)
Theorem log_line_reports_results (w : world) :
  let st := snd (main clock str_compound w) in
  log_lines st
  = (if completes w
     then match log_error w with
          | None =>
              [RunEntry (clock (length (entries st))) "ghost"
                 (length (passed st)) (length (failed st))
                 (length (skipped st)) (entries st)]
          | Some _ => []
          end
     else []).
Proof.
  cbv zeta. destruct (completes w) eqn:Hc.
  - destruct (completes_cases w Hc) as (gc & Hcreds & Hclient & Hconn).
    destruct (main_completes w gc Hcreds Hclient Hconn)
      as (st0 & -> & _ & _ & _ & Hl & _).
    set (checked := checks clock str_compound w gc (ro_of gc) st0).
    destruct (finish_lists w checked) as (Hp & Hf & Hs & He & _).
    cbv zeta in Hp, Hf, Hs, He.
    assert (Hcl : log_lines checked = []).
    { subst checked.
      rewrite (reaches_log_lines _ _ (checks_reaches clock str_compound w gc _ st0)).
      exact Hl. }
    rewrite finish_log, Hp, Hf, Hs, He, Hcl.
    destruct (log_error w); reflexivity.
  - destruct (main_stops w Hc) as (_ & _ & _ & Hl & _). exact Hl.
Qed.

(** X5: a run that does not complete does nothing to the instance and
    writes no log: it is never successful, it has called [get_site] at
    most, it has recorded at most the failed connection check, and the
    log is untouched. *)
Theorem incomplete_run_is_inert (w : world) :
  completes w = false ->
  let st := snd (main clock str_compound w) in
  fst (main clock str_compound w) <> Exit 0
  /\ (net st = [] \/ net st = [ClientCall GetSite])
  /\ passed st = [] /\ skipped st = []
  /\ (failed st = [] \/ failed st = ["Connect"])
  /\ log_lines st = [].
Proof.
  intros Hc. destruct (main_stops w Hc) as (Hcode & Hp & Hs & Hl & Hn & Hf).
  cbv zeta in *. repeat split; try assumption.
  rewrite Hcode. destruct (creds_exist w); [|discriminate].
  destruct (new_client w); discriminate.
Qed.

End RunEnds.

(** ** The protocol of a run *)

Section RunTrace.

Variable clock : nat -> string.
Variable str_compound : json -> string.

Lemma read_posts_effect gc st :
  let st' := read_posts clock str_compound gc st in
  net st' = net st ++ [ClientCall (ListPosts 1 "all" "id,title,status")]
  /\ test_post_id st' = test_post_id st /\ test_tag_id st' = test_tag_id st.
Proof.
  unfold read_posts. cbv zeta. destruct (obind _ _); run_simpl; auto.
Qed.

Lemma read_tags_effect gc st :
  let st' := read_tags clock str_compound gc st in
  net st' = net st ++ [ClientCall (ListTags 1)]
  /\ test_post_id st' = test_post_id st /\ test_tag_id st' = test_tag_id st.
Proof.
  unfold read_tags. cbv zeta. destruct (obind _ _); run_simpl; auto.
Qed.

Lemma write_draft_effect gc st :
  test_post_id st = JNull ->
  let st' := write_draft clock str_compound gc (ro_of gc) st in
  net st'
  = net st
    ++ (if truthy (ro_of gc) then []
        else [ClientCall (CreatePost TEST_TITLE
                "<p>Automated skill init check — safe to delete.</p>" "draft")])
  /\ test_post_id st' = run_post_id gc /\ test_tag_id st' = test_tag_id st.
Proof.
  intros Hnone. unfold write_draft, run_post_id, id_of. cbv zeta.
  destruct (truthy (ro_of gc)).
  - run_simpl. rewrite app_nil_r. auto.
  - destruct (obind _ _); run_simpl; auto.
Qed.

Lemma update_draft_effect gc st :
  let st' := update_draft clock gc (ro_of gc) st in
  net st'
  = net st
    ++ (if truthy (test_post_id st) && negb (truthy (ro_of gc))
        then [ClientCall (UpdatePost (test_post_id st) "init check excerpt")]
        else [])
  /\ test_post_id st' = test_post_id st /\ test_tag_id st' = test_tag_id st.
Proof.
  unfold update_draft. cbv zeta.
  destruct (_ && _).
  - destruct (update_post gc _); run_simpl; auto.
  - rewrite app_nil_r. auto.
Qed.

Lemma publish_unpublish_effect gc st :
  let st' := publish_unpublish clock gc (ro_of gc) st in
  net st'
  = net st
    ++ (if allow_publish (policy_of (cfg gc)) && negb (truthy (ro_of gc))
           && truthy (test_post_id st)
        then [ClientCall (PublishPost (test_post_id st));
              ClientCall (UnpublishPost (test_post_id st))]
        else [])
  /\ test_post_id st' = test_post_id st /\ test_tag_id st' = test_tag_id st.
Proof.
  unfold publish_unpublish, policy_of, cfg_flag. cbv zeta. cbn [allow_publish].
  destruct (truthy (dict_get (cfg gc) "allow_publish" _)); cbn [negb andb].
  2: { run_simpl. rewrite app_nil_r. auto. }
  destruct (truthy (ro_of gc)); cbn [negb andb].
  { run_simpl. rewrite app_nil_r. auto. }
  destruct (truthy (test_post_id st)).
  2: { run_simpl. rewrite app_nil_r. auto. }
  destruct (publish_post gc _), (unpublish_post gc _); run_simpl;
    rewrite <- app_assoc; auto.
Qed.

Lemma write_tag_effect gc st :
  test_tag_id st = JNull ->
  let st' := write_tag clock str_compound gc (ro_of gc) st in
  net st'
  = net st
    ++ (if truthy (ro_of gc) then []
        else [ClientCall (CreateTag TEST_TAG "skill init test — safe to delete")])
  /\ test_post_id st' = test_post_id st /\ test_tag_id st' = run_tag_id gc.
Proof.
  intros Hnone. unfold write_tag, run_tag_id, id_of. cbv zeta.
  destruct (truthy (ro_of gc)).
  - run_simpl. rewrite app_nil_r. auto.
  - destruct (obind _ _); run_simpl; auto.
Qed.

Lemma cleanup_effect c url warning st :
  let st' := cleanup c url warning st in
  net st' = net st ++ cleanup_events c url
  /\ test_post_id st' = test_post_id st /\ test_tag_id st' = test_tag_id st.
Proof.
  unfold cleanup, cleanup_events. cbv zeta.
  destruct (import_requests c); [|run_simpl; rewrite app_nil_r; auto].
  destruct (_make_jwt c); [|run_simpl; rewrite app_nil_r; auto].
  destruct (requests_delete c _ _); run_simpl; auto.
Qed.

Lemma maybe_cleanup_effect (b : bool) c url warning st :
  let st' := if b then cleanup c url warning st else st in
  net st' = net st ++ (if b then cleanup_events c url else [])
  /\ test_post_id st' = test_post_id st /\ test_tag_id st' = test_tag_id st.
Proof.
  destruct b; [apply cleanup_effect|]. cbv zeta. rewrite app_nil_r. auto.
Qed.

Lemma delete_section_effect w gc st :
  (truthy (ro_of gc) = true ->
   test_post_id st = JNull /\ test_tag_id st = JNull) ->
  net (delete_section clock str_compound w gc (ro_of gc) st)
  = net st
    ++ (if truthy (test_post_id st)
        then if allow_delete (policy_of (cfg gc))
             then [ClientCall (DeletePost (test_post_id st))]
             else cleanup_events (post_cleanup w)
                    (post_url str_compound gc (test_post_id st))
        else [])
    ++ (if truthy (test_tag_id st)
        then if allow_delete (policy_of (cfg gc))
             then [ClientCall (DeleteTag (test_tag_id st))]
             else cleanup_events (tag_cleanup w)
                    (tag_url str_compound gc (test_tag_id st))
        else []).
Proof.
  intros Hro. unfold delete_section, policy_of, cfg_flag. cbv zeta.
  cbn [allow_delete].
  destruct (truthy (dict_get (cfg gc) "allow_delete" _)); cbn [negb].
  - destruct (truthy (ro_of gc)).
    + destruct (Hro eq_refl) as [-> ->]. run_simpl. rewrite app_nil_r. reflexivity.
    + set (start := print _ st).
      set (after_post := if truthy (test_post_id start) then _ else _).
      assert (Hpost : net after_post
                      = net st ++ (if truthy (test_post_id st)
                                   then [ClientCall (DeletePost (test_post_id st))]
                                   else [])
                        /\ test_tag_id after_post = test_tag_id st).
      { subst after_post start. run_simpl.
        destruct (truthy (test_post_id st)).
        - destruct (delete_post gc _); run_simpl; auto.
        - run_simpl. rewrite app_nil_r. auto. }
      destruct Hpost as [Hnet Htag]. rewrite Htag.
      destruct (truthy (test_tag_id st)).
      * destruct (delete_tag gc _); run_simpl; rewrite Hnet, ?Htag, <- app_assoc;
          reflexivity.
      * run_simpl. rewrite Hnet, app_nil_r. reflexivity.
  - set (skips := skip clock "Delete (tag)" "allow_delete=false" _).
    match goal with |- context [if truthy (test_post_id skips) then cleanup ?c ?u ?m skips else skips] =>
      destruct (maybe_cleanup_effect (truthy (test_post_id skips)) c u m skips)
        as (Hnet & Hp & Ht);
      set (after_post := if truthy (test_post_id skips) then cleanup c u m skips else skips) in *
    end.
    match goal with |- context [if truthy (test_tag_id after_post) then cleanup ?c ?u ?m after_post else after_post] =>
      destruct (maybe_cleanup_effect (truthy (test_tag_id after_post)) c u m after_post)
        as (Hnet2 & _)
    end.
    cbv zeta in *. rewrite Hnet2, Hnet, Ht, <- app_assoc. reflexivity.
Qed.

Lemma members_effect gc st :
  net (members clock str_compound gc st)
  = net st
    ++ (if allow_member_access (policy_of (cfg gc))
        then [ClientCall (ListMembers 1)] else []).
Proof.
  unfold members, policy_of, cfg_flag. cbv zeta. cbn [allow_member_access].
  destruct (truthy (dict_get (cfg gc) "allow_member_access" _)); cbn [negb].
  - destruct (obind _ _); run_simpl; reflexivity.
  - run_simpl. rewrite app_nil_r. reflexivity.
Qed.

Lemma run_post_id_readonly gc :
  truthy (ro_of gc) = true -> run_post_id gc = JNull.
Proof. unfold run_post_id. intros ->. reflexivity. Qed.

Lemma run_tag_id_readonly gc :
  truthy (ro_of gc) = true -> run_tag_id gc = JNull.
Proof. unfold run_tag_id. intros ->. reflexivity. Qed.

Lemma checks_effect w gc st0 :
  test_post_id st0 = JNull -> test_tag_id st0 = JNull ->
  net (checks clock str_compound w gc (ro_of gc) st0)
  = net st0 ++ skipn 1 (run_events str_compound w gc).
Proof.
  intros Hp0 Ht0. unfold checks. cbv zeta.
  set (s1 := print _ st0).
  assert (P1 : test_post_id s1 = JNull) by exact Hp0.
  assert (T1 : test_tag_id s1 = JNull) by exact Ht0.
  assert (N1 : net s1 = net st0) by reflexivity.
  destruct (read_posts_effect gc s1) as (N2 & P2 & T2).
  set (s2 := read_posts clock str_compound gc s1) in *.
  destruct (read_tags_effect gc s2) as (N3 & P3 & T3).
  set (s3 := read_tags clock str_compound gc s2) in *.
  set (s4 := print _ s3).
  destruct (write_draft_effect gc s4) as (N5 & P5 & T5).
  { subst s4. run_simpl. congruence. }
  set (s5 := write_draft clock str_compound gc (ro_of gc) s4) in *.
  destruct (update_draft_effect gc s5) as (N6 & P6 & T6).
  set (s6 := update_draft clock gc (ro_of gc) s5) in *.
  destruct (publish_unpublish_effect gc s6) as (N7 & P7 & T7).
  set (s7 := publish_unpublish clock gc (ro_of gc) s6) in *.
  destruct (write_tag_effect gc s7) as (N8 & P8 & T8).
  { subst s4. run_simpl. congruence. }
  set (s8 := write_tag clock str_compound gc (ro_of gc) s7) in *.
  cbv zeta in *.
  assert (P8' : test_post_id s8 = run_post_id gc) by congruence.
  rewrite members_effect, delete_section_effect.
  2: { intros Hro. rewrite P8', T8.
       split; [apply run_post_id_readonly | apply run_tag_id_readonly]; exact Hro. }
  rewrite P8', T8, N8, N7, P6, P5, N6, P5, N5.
  subst s4. run_simpl. rewrite N3, N2, N1.
  unfold run_events, publish_events. cbv zeta.
  unfold policy_of, cfg_flag. cbn [readonly_mode allow_publish allow_delete
                                   allow_member_access skipn app].
  change (dict_get (cfg gc) "readonly_mode" (JBool false)) with (ro_of gc).
  rewrite <- !app_assoc. cbn [app]. repeat f_equal.
  - destruct (truthy (ro_of gc)) eqn:Hro; [|rewrite andb_true_r; reflexivity].
    rewrite (run_post_id_readonly gc Hro). reflexivity.
  - destruct (truthy (ro_of gc)) eqn:Hro.
    + rewrite (run_post_id_readonly gc Hro). cbn [truthy]. rewrite !andb_false_r.
      reflexivity.
    + rewrite andb_true_r. reflexivity.
Qed.

(** What a complete run has called and sent when it ends. *)
Lemma complete_run_net (w : world) (gc : GhostClient) :
  creds_exist w = true -> new_client w = Constructed gc -> connected gc = true ->
  net (snd (main clock str_compound w)) = run_events str_compound w gc.
Proof.
  intros Hcreds Hclient Hconn.
  destruct (main_completes clock str_compound w gc Hcreds Hclient Hconn)
    as (st0 & -> & Hn & Hp & Ht & _).
  destruct (finish_lists clock w (checks clock str_compound w gc (ro_of gc) st0))
    as (_ & _ & _ & _ & Hnet). cbv zeta in Hnet.
  rewrite Hnet, (checks_effect w gc st0 Hp Ht), Hn. reflexivity.
Qed.

(** X6: the protocol of a complete run.  A run that completes calls and
    sends exactly [run_events], in that order: the site, the two
    listings, then (unless read-only) the draft, its update and, if
    allowed, publish and unpublish, the tag, one deletion per created
    artifact (through the client if deletes are allowed, by the script's
    own DELETE if not), and the member listing if allowed. *)
Theorem complete_run_events (w : world) (gc : GhostClient) :
  creds_exist w = true -> new_client w = Constructed gc -> connected gc = true ->
  net (snd (main clock str_compound w)) = run_events str_compound w gc.
Proof. exact (complete_run_net w gc). Qed.

End RunTrace.

(** ** What the protocol implies *)

Section RunProtocol.

Variable clock : nat -> string.
Variable str_compound : json -> string.

Lemma id_of_created made :
  truthy (id_of made) = true -> created made (id_of made).
Proof.
  unfold id_of, created. destruct made as [obj|e]; cbn [obind]; [|discriminate].
  destruct (py_get obj "id" JNull) as [id|e] eqn:Hid; [|discriminate].
  intros Hset. exists obj. auto.
Qed.

Lemma created_id_of made id : created made id -> id_of made = id.
Proof.
  unfold id_of, created. intros (obj & -> & Hid & _). cbn [obind].
  rewrite Hid. reflexivity.
Qed.

Lemma run_post_id_created gc :
  truthy (run_post_id gc) = true ->
  created (create_post gc) (run_post_id gc) /\ truthy (ro_of gc) = false.
Proof.
  unfold run_post_id. destruct (truthy (ro_of gc)); [discriminate|].
  intros H. split; [apply id_of_created, H | reflexivity].
Qed.

Lemma run_tag_id_created gc :
  truthy (run_tag_id gc) = true ->
  created (create_tag gc) (run_tag_id gc) /\ truthy (ro_of gc) = false.
Proof.
  unfold run_tag_id. destruct (truthy (ro_of gc)); [discriminate|].
  intros H. split; [apply id_of_created, H | reflexivity].
Qed.

Lemma cleanup_events_cases c url :
  cleanup_events c url = []
  \/ exists u token,
       import_requests c = Returns u /\ _make_jwt c = Returns token
       /\ cleanup_events c url
          = [HttpDelete url [("Authorization", "Ghost " +:+ token);
                             ("Accept-Version", "v5.0")]].
Proof.
  unfold cleanup_events.
  destruct (import_requests c) as [u|e]; [|auto].
  destruct (_make_jwt c) as [token|e]; [|auto].
  right. eauto.
Qed.

(** A run without a client sends nothing; one that does not complete
    calls [get_site] at most. *)
Lemma incomplete_run_events w :
  completes w = false ->
  (net (snd (main clock str_compound w)) = []
   \/ (exists gc, new_client w = Constructed gc)
      /\ net (snd (main clock str_compound w)) = [ClientCall GetSite]).
Proof.
  unfold completes, main. cbv zeta.
  destruct (creds_exist w); cbn [negb andb]; [|auto].
  destruct (new_client w) as [gc|e|e]; [|auto ..].
  intros Hconn.
  match goal with |- context [connect clock str_compound gc ?s] =>
    destruct (connect_fails clock str_compound gc s Hconn) as [reason ->] end.
  cbn [snd].
  match goal with |- context [summary ?s] =>
    destruct (summary_frame s) as [_ Sn] end.
  rewrite Sn. run_simpl. eauto.
Qed.

Lemma run_events_own w gc :
  Forall (own_artifact str_compound gc) (run_events str_compound w gc).
Proof.
  unfold run_events, publish_events. cbv zeta.
  repeat apply Forall_app_2.
  - repeat constructor.
  - destruct (readonly_mode _); repeat constructor.
  - destruct (truthy (run_post_id gc)) eqn:Hp; repeat constructor.
    apply run_post_id_created, Hp.
  - destruct (allow_publish _); cbn [andb]; [|constructor].
    destruct (truthy (run_post_id gc)) eqn:Hp; repeat constructor;
      apply run_post_id_created, Hp.
  - destruct (readonly_mode _); repeat constructor.
  - destruct (truthy (run_post_id gc)) eqn:Hp; [|constructor].
    destruct (run_post_id_created gc Hp) as [Hmade _].
    destruct (allow_delete _); [repeat constructor; exact Hmade|].
    destruct (cleanup_events_cases (post_cleanup w)
                (post_url str_compound gc (run_post_id gc)))
      as [-> | (u & token & _ & _ & ->)]; [constructor|].
    constructor; [|constructor]. left. eauto.
  - destruct (truthy (run_tag_id gc)) eqn:Ht; [|constructor].
    destruct (run_tag_id_created gc Ht) as [Hmade _].
    destruct (allow_delete _); [repeat constructor; exact Hmade|].
    destruct (cleanup_events_cases (tag_cleanup w)
                (tag_url str_compound gc (run_tag_id gc)))
      as [-> | (u & token & _ & _ & ->)]; [constructor|].
    constructor; [|constructor]. right. eauto.
  - destruct (allow_member_access _); repeat constructor.
Qed.

(** X7: the script only ever touches what it created.  Every update,
    publish, unpublish and delete call of a run names the id that
    [create_post] returned in this run, every tag deletion the id that
    [create_tag] returned, and every DELETE the script sends itself goes
    to the URL of one of the two; a run that gets no client sends
    nothing. *)
Theorem run_touches_own_artifacts (w : world) :
  match new_client w with
  | Constructed gc =>
      Forall (own_artifact str_compound gc) (net (snd (main clock str_compound w)))
  | _ => net (snd (main clock str_compound w)) = []
  end.
Proof.
  destruct (completes w) eqn:Hc.
  - destruct (completes_cases w Hc) as (gc & Hcreds & Hclient & Hconn).
    rewrite Hclient.
    rewrite (complete_run_net clock str_compound w gc Hcreds Hclient Hconn).
    apply run_events_own.
  - destruct (incomplete_run_events w Hc) as [-> | [[gc Hclient] ->]].
    + destruct (new_client w); [constructor | reflexivity | reflexivity].
    + rewrite Hclient. repeat constructor.
Qed.




(** X9: what was created gets its deletion requested.  In a complete
    run that is not read-only, if [create_post] returned an object with
    an id that counts as set, the run asks for the deletion of that very
    post: through [delete_post] when deletes are allowed, and otherwise
    by its own DELETE to the post's URL, signed with the fresh token,
    provided the cleanup got as far as sending; the same holds for the
    tag. *)
Theorem created_artifacts_deletion_requested (w : world) (gc : GhostClient) :
  creds_exist w = true -> new_client w = Constructed gc -> connected gc = true ->
  truthy (ro_of gc) = false ->
  let sent := net (snd (main clock str_compound w)) in
  let ad := allow_delete (policy_of (cfg gc)) in
  (forall id, created (create_post gc) id ->
     (ad = true -> In (ClientCall (DeletePost id)) sent)
     /\ (ad = false ->
         forall u token,
           import_requests (post_cleanup w) = Returns u ->
           _make_jwt (post_cleanup w) = Returns token ->
           In (HttpDelete (post_url str_compound gc id)
                 [("Authorization", "Ghost " +:+ token); ("Accept-Version", "v5.0")])
              sent))
  /\ (forall id, created (create_tag gc) id ->
        (ad = true -> In (ClientCall (DeleteTag id)) sent)
        /\ (ad = false ->
            forall u token,
              import_requests (tag_cleanup w) = Returns u ->
              _make_jwt (tag_cleanup w) = Returns token ->
              In (HttpDelete (tag_url str_compound gc id)
                    [("Authorization", "Ghost " +:+ token); ("Accept-Version", "v5.0")])
                 sent)).
Proof.
  intros Hcreds Hclient Hconn Hro. cbv zeta.
  rewrite (complete_run_net clock str_compound w gc Hcreds Hclient Hconn).
  unfold run_events. cbv zeta.
  split; intros id Hmade.
  - assert (Hid : run_post_id gc = id)
      by (unfold run_post_id; rewrite Hro; apply created_id_of, Hmade).
    assert (Hset : truthy id = true) by (destruct Hmade as (? & _ & _ & H); exact H).
    rewrite Hid, Hset. split.
    + intros ->. rewrite !in_app_iff. cbn [In]. auto 10.
    + intros -> u token Himport Hjwt. unfold cleanup_events.
      rewrite Himport, Hjwt, !in_app_iff. cbn [In]. auto 10.
  - assert (Hid : run_tag_id gc = id)
      by (unfold run_tag_id; rewrite Hro; apply created_id_of, Hmade).
    assert (Hset : truthy id = true) by (destruct Hmade as (? & _ & _ & H); exact H).
    rewrite Hid, Hset. split.
    + intros ->. rewrite !in_app_iff. cbn [In]. auto 12.
    + intros -> u token Himport Hjwt. unfold cleanup_events.
      rewrite Himport, Hjwt, !in_app_iff. cbn [In]. auto 12.
Qed.

(** X10: a run is short.  It makes at most eleven calls and requests in
    all, of which at most two are DELETEs the script sends itself. *)
Theorem run_is_bounded (w : world) :
  let sent := net (snd (main clock str_compound w)) in
  (length sent <= 11)%nat
  /\ (length (List.filter is_http_delete sent) <= 2)%nat.
Proof.
  cbv zeta. destruct (completes w) eqn:Hc.
  - destruct (completes_cases w Hc) as (gc & Hcreds & Hclient & Hconn).
    rewrite (complete_run_net clock str_compound w gc Hcreds Hclient Hconn).
    unfold run_events, publish_events. cbv zeta.
    destruct (readonly_mode (policy_of (cfg gc))), (allow_publish (policy_of (cfg gc))), (truthy (run_post_id gc)),
      (truthy (run_tag_id gc)), (allow_delete (policy_of (cfg gc))), (allow_member_access (policy_of (cfg gc)));
      destruct (cleanup_events_cases (post_cleanup w)
                  (post_url str_compound gc (run_post_id gc)))
        as [Hpc | (? & ? & _ & _ & Hpc)];
      destruct (cleanup_events_cases (tag_cleanup w)
                  (tag_url str_compound gc (run_tag_id gc)))
        as [Htc | (? & ? & _ & _ & Htc)];
      rewrite ?Hpc, ?Htc; cbn; lia.
  - destruct (incomplete_run_events w Hc) as [-> | [_ ->]]; cbn; lia.
Qed.

End RunProtocol.

(** ** Which checks fail *)

Section RunVerdicts.

Variable clock : nat -> string.
Variable str_compound : json -> string.

Lemma read_posts_failed gc st :
  failed (read_posts clock str_compound gc st)
  = failed st ++ (if read_ok (list_posts gc) then [] else ["Read posts"]).
Proof.
  unfold read_posts, read_ok, returns. cbv zeta.
  destruct (list_posts gc) as [result|e]; cbn [obind];
    [|run_simpl; reflexivity].
  destruct result as [| | | | |d];
    try (cbn [py_get obind pagination_total]; run_simpl; reflexivity).
  cbn [py_get obind].
  destruct (pagination_total (JObj d)); cbn [obind]; run_simpl;
    rewrite ?app_nil_r; reflexivity.
Qed.

Lemma read_tags_failed gc st :
  failed (read_tags clock str_compound gc st)
  = failed st ++ (if read_ok (list_tags gc) then [] else ["Read tags"]).
Proof.
  unfold read_tags, read_ok, returns. cbv zeta.
  destruct (list_tags gc) as [result|e]; cbn [obind];
    [|run_simpl; reflexivity].
  destruct (pagination_total result); cbn [obind]; run_simpl;
    rewrite ?app_nil_r; reflexivity.
Qed.

Lemma write_draft_failed gc st :
  failed (write_draft clock str_compound gc (ro_of gc) st)
  = failed st
    ++ (if truthy (ro_of gc) || create_ok (create_post gc) then []
        else ["Write (create draft)"]).
Proof.
  unfold write_draft, create_ok, returns. cbv zeta.
  destruct (truthy (ro_of gc)); cbn [orb];
    [run_simpl; rewrite app_nil_r; reflexivity|].
  destruct (obind _ _); run_simpl; rewrite ?app_nil_r; reflexivity.
Qed.

Lemma update_draft_failed gc st :
  (truthy (ro_of gc) = true -> test_post_id st = JNull) ->
  failed (update_draft clock gc (ro_of gc) st)
  = failed st
    ++ (if truthy (test_post_id st)
           && negb (returns (update_post gc (test_post_id st)))
        then ["Write (update post)"] else []).
Proof.
  intros Hro. unfold update_draft, returns. cbv zeta.
  destruct (truthy (ro_of gc)).
  - rewrite (Hro eq_refl). cbn [truthy andb]. rewrite app_nil_r. reflexivity.
  - rewrite andb_true_r. destruct (truthy (test_post_id st)); cbn [andb];
      [|rewrite app_nil_r; reflexivity].
    destruct (update_post gc _); run_simpl; rewrite ?app_nil_r; reflexivity.
Qed.

Lemma publish_unpublish_failed gc st :
  (truthy (ro_of gc) = true -> test_post_id st = JNull) ->
  failed (publish_unpublish clock gc (ro_of gc) st)
  = failed st
    ++ (if allow_publish (policy_of (cfg gc)) && truthy (test_post_id st)
        then (if returns (publish_post gc (test_post_id st)) then []
              else ["Publish post"])
             ++ (if returns (unpublish_post gc (test_post_id st)) then []
                 else ["Unpublish post"])
        else []).
Proof.
  intros Hro. unfold publish_unpublish, policy_of, cfg_flag, returns. cbv zeta.
  cbn [allow_publish].
  destruct (truthy (dict_get (cfg gc) "allow_publish" _)); cbn [negb andb];
    [|run_simpl; rewrite app_nil_r; reflexivity].
  destruct (truthy (ro_of gc)).
  { rewrite (Hro eq_refl). cbn [truthy]. run_simpl. rewrite app_nil_r. reflexivity. }
  destruct (truthy (test_post_id st));
    [|run_simpl; rewrite app_nil_r; reflexivity].
  destruct (publish_post gc _), (unpublish_post gc _); run_simpl;
    rewrite <- ?app_assoc, ?app_nil_r; reflexivity.
Qed.

Lemma write_tag_failed gc st :
  failed (write_tag clock str_compound gc (ro_of gc) st)
  = failed st
    ++ (if truthy (ro_of gc) || create_ok (create_tag gc) then []
        else ["Write (create tag)"]).
Proof.
  unfold write_tag, create_ok, returns. cbv zeta.
  destruct (truthy (ro_of gc)); cbn [orb];
    [run_simpl; rewrite app_nil_r; reflexivity|].
  destruct (obind _ _); run_simpl; rewrite ?app_nil_r; reflexivity.
Qed.

Lemma delete_section_failed w gc st :
  (truthy (ro_of gc) = true ->
   test_post_id st = JNull /\ test_tag_id st = JNull) ->
  failed (delete_section clock str_compound w gc (ro_of gc) st)
  = failed st
    ++ (if allow_delete (policy_of (cfg gc)) && truthy (test_post_id st)
           && negb (returns (delete_post gc (test_post_id st)))
        then ["Delete (post)"] else [])
    ++ (if allow_delete (policy_of (cfg gc)) && truthy (test_tag_id st)
           && negb (returns (delete_tag gc (test_tag_id st)))
        then ["Delete (tag)"] else []).
Proof.
  intros Hro. unfold delete_section, policy_of, cfg_flag, returns. cbv zeta.
  cbn [allow_delete].
  destruct (truthy (dict_get (cfg gc) "allow_delete" _)); cbn [negb andb].
  - destruct (truthy (ro_of gc)).
    + destruct (Hro eq_refl) as [-> ->]. run_simpl. rewrite app_nil_r. reflexivity.
    + set (start := print _ st).
      set (after_post := if truthy (test_post_id start) then _ else _).
      assert (Hpost : failed after_post
                      = failed st
                        ++ (if truthy (test_post_id st)
                               && negb match delete_post gc (test_post_id st) with
                                       | Returns _ => true
                                       | Raises _ => false
                                       end
                            then ["Delete (post)"] else [])
                      /\ test_tag_id after_post = test_tag_id st).
      { subst after_post start. run_simpl.
        destruct (truthy (test_post_id st)); cbn [andb].
        - destruct (delete_post gc _); run_simpl; rewrite ?app_nil_r; auto.
        - run_simpl. rewrite app_nil_r. auto. }
      destruct Hpost as [Hfailed Htag]. rewrite Htag.
      destruct (truthy (test_tag_id st)); cbn [andb].
      * run_simpl. rewrite ?Htag.
        destruct (delete_tag gc (test_tag_id st)); run_simpl; cbn [negb andb];
          rewrite Hfailed, <- ?app_assoc, ?app_nil_r; reflexivity.
      * run_simpl. rewrite Hfailed, app_nil_r. reflexivity.
  - set (skips := skip clock "Delete (tag)" "allow_delete=false" _).
    match goal with |- context [if truthy (test_post_id skips) then cleanup ?c ?u ?m skips else skips] =>
      destruct (maybe_cleanup_same_results (truthy (test_post_id skips)) c u m skips)
        as (_ & Hf & _);
      set (after_post := if truthy (test_post_id skips) then cleanup c u m skips else skips) in *
    end.
    match goal with |- context [if truthy (test_tag_id after_post) then cleanup ?c ?u ?m after_post else after_post] =>
      destruct (maybe_cleanup_same_results (truthy (test_tag_id after_post)) c u m after_post)
        as (_ & Hf2 & _)
    end.
    rewrite Hf2, Hf. subst skips. run_simpl. rewrite !app_nil_r. reflexivity.
Qed.

Lemma members_failed gc st :
  failed (members clock str_compound gc st)
  = failed st
    ++ (if allow_member_access (policy_of (cfg gc))
           && negb (read_ok (list_members gc))
        then ["Members (list)"] else []).
Proof.
  unfold members, policy_of, cfg_flag, read_ok, returns. cbv zeta.
  cbn [allow_member_access].
  destruct (truthy (dict_get (cfg gc) "allow_member_access" _)); cbn [negb andb];
    [|run_simpl; rewrite app_nil_r; reflexivity].
  destruct (list_members gc) as [result|e]; cbn [obind];
    [|run_simpl; reflexivity].
  destruct (pagination_total result); cbn [obind]; run_simpl;
    rewrite ?app_nil_r; reflexivity.
Qed.

Lemma checks_failed w gc st0 :
  test_post_id st0 = JNull -> test_tag_id st0 = JNull ->
  failed (checks clock str_compound w gc (ro_of gc) st0)
  = failed st0 ++ failing_checks gc.
Proof.
  intros Hp0 Ht0. unfold checks. cbv zeta.
  set (s1 := print _ st0).
  assert (P1 : test_post_id s1 = JNull) by exact Hp0.
  assert (T1 : test_tag_id s1 = JNull) by exact Ht0.
  assert (F1 : failed s1 = failed st0) by reflexivity.
  destruct (read_posts_effect clock str_compound gc s1) as (_ & P2 & T2).
  pose proof (read_posts_failed gc s1) as F2.
  set (s2 := read_posts clock str_compound gc s1) in *.
  destruct (read_tags_effect clock str_compound gc s2) as (_ & P3 & T3).
  pose proof (read_tags_failed gc s2) as F3.
  set (s3 := read_tags clock str_compound gc s2) in *.
  set (s4 := print _ s3).
  assert (P4 : test_post_id s4 = JNull) by (subst s4; run_simpl; congruence).
  assert (T4 : test_tag_id s4 = JNull) by (subst s4; run_simpl; congruence).
  assert (F4 : failed s4 = failed s3) by reflexivity.
  destruct (write_draft_effect clock str_compound gc s4 P4) as (_ & P5 & T5).
  pose proof (write_draft_failed gc s4) as F5.
  set (s5 := write_draft clock str_compound gc (ro_of gc) s4) in *.
  destruct (update_draft_effect clock gc s5) as (_ & P6 & T6).
  assert (F6 := update_draft_failed gc s5).
  cbv zeta in P5.
  specialize (F6 (fun Hro => eq_trans P5 (run_post_id_readonly gc Hro))).
  set (s6 := update_draft clock gc (ro_of gc) s5) in *.
  destruct (publish_unpublish_effect clock gc s6) as (_ & P7 & T7).
  assert (F7 := publish_unpublish_failed gc s6).
  cbv zeta in P6.
  specialize (F7 (fun Hro => eq_trans (eq_trans P6 P5) (run_post_id_readonly gc Hro))).
  set (s7 := publish_unpublish clock gc (ro_of gc) s6) in *.
  cbv zeta in *.
  assert (T7' : test_tag_id s7 = JNull) by congruence.
  destruct (write_tag_effect clock str_compound gc s7 T7') as (_ & P8 & T8).
  pose proof (write_tag_failed gc s7) as F8.
  set (s8 := write_tag clock str_compound gc (ro_of gc) s7) in *.
  cbv zeta in *.
  assert (P6' : test_post_id s6 = run_post_id gc) by congruence.
  assert (P8' : test_post_id s8 = run_post_id gc) by congruence.
  rewrite members_failed, delete_section_failed.
  2: { intros Hro. rewrite P8', T8.
       split; [apply run_post_id_readonly | apply run_tag_id_readonly]; exact Hro. }
  rewrite P8', T8, F8, F7, F6, F5, F4, F3, F2, F1, P6', P5.
  unfold failing_checks. cbv zeta.
  unfold policy_of, cfg_flag.
  cbn [readonly_mode allow_publish allow_delete allow_member_access].
  change (dict_get (cfg gc) "readonly_mode" (JBool false)) with (ro_of gc).
  rewrite <- !app_assoc. reflexivity.
Qed.

(** X11: the failed checks are the failed calls.  In a complete run the
    failed list is exactly [failing_checks]: a check fails when, and only
    when, the call it made raised (or returned something the script could
    not read); checks that policy or a missing test artifact kept from
    running never fail.  So the run exits with 0 exactly when every call
    it attempted came back. *)
Theorem failed_checks_are_failed_calls (w : world) (gc : GhostClient) :
  creds_exist w = true -> new_client w = Constructed gc -> connected gc = true ->
  failed (snd (main clock str_compound w)) = failing_checks gc
  /\ (fst (main clock str_compound w) = Exit 0 <-> failing_checks gc = []).
Proof.
  intros Hcreds Hclient Hconn.
  destruct (main_completes clock str_compound w gc Hcreds Hclient Hconn)
    as (st0 & -> & _ & Hp & Ht & _ & _ & Hf & _).
  destruct (finish_lists clock w (checks clock str_compound w gc (ro_of gc) st0))
    as (_ & Hfailed & _). cbv zeta in Hfailed.
  rewrite Hfailed, finish_exit, (checks_failed w gc st0 Hp Ht), Hf. cbn [app].
  split; [reflexivity|].
  destruct (failing_checks gc); split; congruence.
Qed.

End RunVerdicts.

(** ** The total of a listing *)

(** X12: reading the total of a listing.  The lookup returns the total
    the response holds; it returns ["?"] when [meta], [pagination] or
    [total] is absent; and it raises, an [AttributeError] and nothing
    else, exactly when the response, [meta] or [pagination] is there but
    is no object. *)
Theorem pagination_total_cases (result : json) :
  match pagination_total result with
  | Returns v =>
      match total_of result with
      | Some total => v = total /\ total_missing result = false
      | None => v = JStr "?" /\ total_missing result = true
      end
  | Raises e =>
      exn_class e = "AttributeError"
      /\ total_of result = None /\ total_missing result = false
  end.
Proof.
  unfold pagination_total, total_of, total_missing.
  destruct result as [| | | | |d]; cbn [py_get obind]; auto.
  unfold dict_get at 1.
  destruct (d !! "meta") as [[| | | | |m]|]; cbn [py_get obind];
    unfold dict_get; rewrite ?lookup_empty; auto;
    try (cbn [py_get obind]; unfold dict_get; rewrite ?lookup_empty; auto; fail).
  destruct (m !! "pagination") as [[| | | | |p]|]; cbn [py_get obind];
    unfold dict_get; rewrite ?lookup_empty; auto.
  destruct (p !! "total"); auto.
Qed.

(** ** The summary *)

Section RunSummary.

Variable clock : nat -> string.
Variable str_compound : json -> string.





End RunSummary.

(** ** The theorems at the sample runs *)

(** The unreachable instance. *)
Lemma incomplete_run_is_inert_witness :
  let st := snd (main sample_clock sample_str offline_world) in
  fst (main sample_clock sample_str offline_world) <> Exit 0
  /\ (net st = [] \/ net st = [ClientCall GetSite])
  /\ passed st = [] /\ skipped st = []
  /\ (failed st = [] \/ failed st = ["Connect"])
  /\ log_lines st = [].
Proof.
  apply (incomplete_run_is_inert sample_clock sample_str offline_world).
  vm_compute. reflexivity.
Defined.

(** The default run follows the protocol. *)
Lemma complete_run_events_witness :
  net (snd (main sample_clock sample_str default_world))
  = run_events sample_str default_world default_client.
Proof.
  apply (complete_run_events sample_clock sample_str default_world default_client);
    vm_compute; reflexivity.
Defined.

Example default_run_events :
  run_events sample_str default_world default_client
  = [ClientCall GetSite; ClientCall (ListPosts 1 "all" "id,title,status");
     ClientCall (ListTags 1);
     ClientCall (CreatePost TEST_TITLE
                   "<p>Automated skill init check — safe to delete.</p>" "draft");
     ClientCall (UpdatePost (JStr "p1") "init check excerpt");
     ClientCall (PublishPost (JStr "p1")); ClientCall (UnpublishPost (JStr "p1"));
     ClientCall (CreateTag TEST_TAG "skill init test — safe to delete");
     HttpDelete "https://blog.example/ghost/api/admin/posts/p1"
       [("Authorization", "Ghost token"); ("Accept-Version", "v5.0")];
     HttpDelete "https://blog.example/ghost/api/admin/tags/t1"
       [("Authorization", "Ghost token"); ("Accept-Version", "v5.0")]].
Proof. vm_compute. reflexivity. Qed.


(** The cleanup DELETE for the test post of the default run. *)
Lemma created_artifacts_deletion_requested_witness :
  In (HttpDelete "https://blog.example/ghost/api/admin/posts/p1"
        [("Authorization", "Ghost token"); ("Accept-Version", "v5.0")])
     (net (snd (main sample_clock sample_str default_world))).
Proof.
  destruct (created_artifacts_deletion_requested sample_clock sample_str
              default_world default_client eq_refl eq_refl eq_refl eq_refl)
    as [Hpost _].
  assert (Hmade : created (create_post default_client) (JStr "p1")).
  { exists (JObj {[ "id" := JStr "p1" ]}). repeat split. }
  destruct (Hpost (JStr "p1") Hmade) as [_ Hcleanup].
  exact (Hcleanup eq_refl tt "token" eq_refl eq_refl).
Defined.

(** The two failed calls of the flaky instance are the two failed checks. *)
Lemma failed_checks_are_failed_calls_witness :
  failed (snd (main sample_clock sample_str flaky_world))
  = ["Read tags"; "Unpublish post"]
  /\ fst (main sample_clock sample_str flaky_world) = Exit 1.
Proof.
  destruct (failed_checks_are_failed_calls sample_clock sample_str flaky_world
              flaky_client eq_refl eq_refl eq_refl) as [Hfailed _].
  split; [rewrite Hfailed|]; vm_compute; reflexivity.
Defined.


Example flaky_summary_text :
  summary_text (snd (main sample_clock sample_str flaky_world))
  = [nl +:+ "  6/8 checks passed"; ", 3 skipped (disabled in config)"; nl;
     nl +:+ "  Failed checks:" +:+ nl;
     "    ✗  Read tags" +:+ nl; "    ✗  Unpublish post" +:+ nl].
Proof. vm_compute. reflexivity. Qed.

(** * The run under interrupts *)

Section RunInterrupts.

Variable clock : nat -> string.
Variable str_compound : json -> string.
Variable interrupts : site -> option interrupt.

Lemma runs_as_uninterrupted st : runs_as interrupts (None, st) st.
Proof. left. reflexivity. Qed.

Lemma calling_cases s reached r st :
  runs_as interrupts r st -> runs_as interrupts (calling interrupts s reached r) st.
Proof.
  intros H. unfold calling. destruct (interrupts s) as [b|] eqn:Hs; [|exact H].
  right. eauto.
Qed.

Lemma andthen_cases r k st1 st2 :
  runs_as interrupts r st1 -> runs_as interrupts (k st1) st2 -> runs_as interrupts (andthen r k) st2.
Proof.
  intros [->|(s & b & st & Hs & ->)] Hk; cbn [andthen]; [exact Hk|].
  right. eauto.
Qed.

Lemma if_cases (b : bool) r1 r2 st1 st2 :
  runs_as interrupts r1 st1 -> runs_as interrupts r2 st2 ->
  runs_as interrupts (if b then r1 else r2) (if b then st1 else st2).
Proof. destruct b; auto. Qed.

Create HintDb interrupts.

#[local] Hint Resolve runs_as_uninterrupted calling_cases if_cases : interrupts.

Lemma read_posts_full_cases gc st :
  runs_as interrupts (read_posts_full clock str_compound interrupts gc st)
          (read_posts clock str_compound gc st).
Proof. unfold read_posts_full. auto with interrupts. Qed.

Lemma read_tags_full_cases gc st :
  runs_as interrupts (read_tags_full clock str_compound interrupts gc st)
          (read_tags clock str_compound gc st).
Proof. unfold read_tags_full. auto with interrupts. Qed.

Lemma write_draft_full_cases gc ro st :
  runs_as interrupts (write_draft_full clock str_compound interrupts gc ro st)
          (write_draft clock str_compound gc ro st).
Proof.
  unfold write_draft_full. cbv zeta. destruct (truthy ro); auto with interrupts.
Qed.

Lemma update_draft_full_cases gc ro st :
  runs_as interrupts (update_draft_full clock interrupts gc ro st)
          (update_draft clock gc ro st).
Proof.
  unfold update_draft_full. cbv zeta. destruct (_ && _); auto with interrupts.
Qed.

Lemma publish_unpublish_full_cases gc ro st :
  runs_as interrupts (publish_unpublish_full clock interrupts gc ro st)
          (publish_unpublish clock gc ro st).
Proof.
  unfold publish_unpublish_full. cbv zeta.
  destruct (negb _); [|destruct (truthy ro); [|destruct (truthy (test_post_id st))]];
    auto with interrupts.
Qed.

Lemma write_tag_full_cases gc ro st :
  runs_as interrupts (write_tag_full clock str_compound interrupts gc ro st)
          (write_tag clock str_compound gc ro st).
Proof.
  unfold write_tag_full. cbv zeta. destruct (truthy ro); auto with interrupts.
Qed.

Lemma cleanup_full_cases t c url warning st :
  runs_as interrupts (cleanup_full interrupts t c url warning st)
          (cleanup c url warning st).
Proof.
  unfold cleanup_full, cleanup. cbv zeta.
  apply calling_cases. destruct (import_requests c); [|auto with interrupts].
  apply calling_cases. destruct (_make_jwt c); [|auto with interrupts].
  apply calling_cases. destruct (requests_delete c _ _); auto with interrupts.
Qed.

Lemma maybe_cleanup_full_cases (b : bool) t c url warning st :
  runs_as interrupts (if b then cleanup_full interrupts t c url warning st else (None, st))
          (if b then cleanup c url warning st else st).
Proof. destruct b; [apply cleanup_full_cases | auto with interrupts]. Qed.

Lemma delete_section_full_cases w gc ro st :
  runs_as interrupts (delete_section_full clock str_compound interrupts w gc ro st)
          (delete_section clock str_compound w gc ro st).
Proof.
  unfold delete_section_full, delete_section. cbv zeta.
  destruct (negb _); [|destruct (truthy ro)].
  - eapply andthen_cases; [apply maybe_cleanup_full_cases|].
    apply maybe_cleanup_full_cases.
  - auto with interrupts.
  - eapply andthen_cases; [apply if_cases; auto with interrupts|].
    cbv beta. apply if_cases; auto with interrupts.
Qed.

Lemma members_full_cases gc st :
  runs_as interrupts (members_full clock str_compound interrupts gc st)
          (members clock str_compound gc st).
Proof.
  unfold members_full. cbv zeta. destruct (negb _); auto with interrupts.
Qed.

Lemma checks_full_cases w gc ro st :
  runs_as interrupts (checks_full clock str_compound interrupts w gc ro st)
          (checks clock str_compound w gc ro st).
Proof.
  unfold checks_full, checks. cbv zeta.
  eapply andthen_cases; [apply read_posts_full_cases|].
  eapply andthen_cases; [apply read_tags_full_cases|].
  eapply andthen_cases; [apply write_draft_full_cases|].
  eapply andthen_cases; [apply update_draft_full_cases|].
  eapply andthen_cases; [apply publish_unpublish_full_cases|].
  eapply andthen_cases; [apply write_tag_full_cases|].
  eapply andthen_cases; [apply delete_section_full_cases|].
  apply members_full_cases.
Qed.

(** A run under interrupts is the run without them, or it is stopped by
    one of them. *)
Lemma main_full_cases w :
  main_full clock str_compound interrupts w
  = (Ended (fst (main clock str_compound w)), snd (main clock str_compound w))
  \/ exists s b st,
       interrupts s = Some b
       /\ main_full clock str_compound interrupts w = (Interrupted b, st).
Proof.
  unfold main_full, main. cbv zeta.
  destruct (creds_exist w); cbn [negb]; [|left; reflexivity].
  destruct (interrupts AtGhostClient) as [b|] eqn:Hclient; [right; eauto|].
  destruct (new_client w) as [gc|e|e]; [|left; reflexivity ..].
  unfold connect_full.
  destruct (interrupts (AtCall GetSite)) as [b|] eqn:Hsite; [right; eauto|].
  destruct (connect clock str_compound gc _) as [[code|] st]; [left; reflexivity|].
  destruct (checks_full_cases w gc (dict_get (cfg gc) "readonly_mode" (JBool false)) st)
    as [->|(s & b & st' & Hs & ->)]; [|right; eauto].
  unfold finish_full.
  destruct (interrupts AtWriteLog) as [b|] eqn:Hlog; [right; eauto|].
  left. reflexivity.
Qed.

(** Without interrupts the run is the run as modelled by [main]. *)
Lemma main_full_uninterrupted w :
  (forall s, interrupts s = None) ->
  main_full clock str_compound interrupts w
  = (Ended (fst (main clock str_compound w)), snd (main clock str_compound w)).
Proof.
  intros Hnone. destruct (main_full_cases w) as [H|(s & b & st & Hs & _)]; [exact H|].
  rewrite Hnone in Hs. discriminate.
Qed.


(** *** The exit status *)





(** *** The log and the results *)

(** X4: a log that cannot be written costs nothing else: with any other
    outcome of [write_log] that its [except Exception] catches, the run
    ends the same way, with the same passed, failed and skipped checks
    and entries, and has sent the same requests; and this under any
    interrupts. *)
Theorem log_failure_leaves_results (w : world) (err : option py_exn) :
  let run := main_full clock str_compound interrupts w in
  let run' := main_full clock str_compound interrupts (with_log_error w err) in
  fst run' = fst run
  /\ passed (snd run') = passed (snd run) /\ failed (snd run') = failed (snd run)
  /\ skipped (snd run') = skipped (snd run) /\ entries (snd run') = entries (snd run)
  /\ net (snd run') = net (snd run).
Proof.
  cbv zeta. unfold main_full. cbv zeta.
  cbn [creds_exist CREDS_FILE new_client with_log_error].
  destruct (creds_exist w); cbn [negb]; [|repeat split].
  destruct (interrupts AtGhostClient); [repeat split|].
  destruct (new_client w) as [gc|e|e]; [|repeat split ..].
  destruct (connect_full clock str_compound interrupts gc _)
    as [[b|] [[code|] st]]; [repeat split ..|].
  change (checks_full clock str_compound interrupts (with_log_error w err) gc)
    with (checks_full clock str_compound interrupts w gc).
  destruct (checks_full clock str_compound interrupts w gc _ st)
    as [[b|] checked]; [repeat split|].
  unfold finish_full. destruct (interrupts AtWriteLog); [repeat split|].
  cbn [fst snd]. rewrite !finish_exit.
  destruct (finish_lists clock w checked) as (Hp & Hf & Hs & He & Hn).
  destruct (finish_lists clock (with_log_error w err) checked)
    as (Hp' & Hf' & Hs' & He' & Hn').
  cbv zeta in *. split; [congruence|]. repeat split; congruence.
Qed.

(** *** The cleanup and the results *)



Section CleanupCaught.

(** No interrupt strikes a cleanup block. *)
Hypothesis cleanup_uninterrupted : forall t s, interrupts (AtCleanup t s) = None.




End CleanupCaught.




End RunInterrupts.



(** An interrupt at [get_site] or in [write_log] ends the run. *)
Example interrupted_runs :
  fst (main_full sample_clock sample_str interrupt_get_site default_world)
  = Interrupted keyboard_interrupt
  /\ failed (snd (main_full sample_clock sample_str interrupt_get_site default_world)) = []
  /\ fst (main_full sample_clock sample_str interrupt_write_log default_world)
     = Interrupted keyboard_interrupt
  /\ log_lines (snd (main_full sample_clock sample_str interrupt_write_log default_world)) = [].
Proof. repeat split; vm_compute; reflexivity. Qed.
